(** * NC DMV appointment monitor: a shallow embedding of [main.py]

    The development follows the layout of the source file:
    configuration, the webhook notifier ([send_ha_webhook]), the one-shot
    location discovery ([fetch_nearby_locations]), the per-category probe
    ([check_category]) and the orchestrating loop ([monitor_categories]).

    The remote browser and the HTTP endpoint are external; what they answer
    is an input of the model.  Every awaited call can either return a value
    or raise, so their answers are values of type [result].  Logger calls,
    browser connections, webhook requests and sleeps are recorded, in order,
    in a trace of [event]s. *)

From Stdlib Require Import ZArith Lia String Ascii List Sorted Permutation.
From stdpp Require Import base gmap strings list.
Import ListNotations.
Local Open Scope string_scope.
Local Open Scope Z_scope.
Local Open Scope list_scope.

(** ** Python strings *)

Module PyStr.

(** [str.isspace] on the code points below 256 (a character of the model
    stands for one code point). *)
Definition is_space (c : ascii) : bool :=
  let n := nat_of_ascii c in
  ((9 <=? n)%nat && (n <=? 13)%nat)
  || ((28 <=? n)%nat && (n <=? 32)%nat)
  || (n =? 133)%nat || (n =? 160)%nat.

Fixpoint lstrip (s : string) : string :=
  match s with
  | EmptyString => EmptyString
  | String c s' => if is_space c then lstrip s' else s
  end.

Fixpoint rstrip (s : string) : string :=
  match s with
  | EmptyString => EmptyString
  | String c s' =>
      match rstrip s' with
      | EmptyString => if is_space c then EmptyString else String c EmptyString
      | r => String c r
      end
  end.

(** [s.strip()] *)
Definition strip (s : string) : string := rstrip (lstrip s).

(** Truth value of a string: [bool(s)]. *)
Definition truthy (s : string) : bool :=
  match s with EmptyString => false | String _ _ => true end.

(** [s[:n]] for a non-negative literal [n]. *)
Definition prefix (n : nat) (s : string) : string := String.substring 0 n s.

End PyStr.

(** ** Python list slicing and sorting *)

Module PyList.

(** [l[:k]]: the first [k] items, or all but the last [-k] when [k] is
    negative. *)
Definition slice_to {A} (l : list A) (k : Z) : list A :=
  if 0 <=? k then firstn (Z.to_nat k) l
  else firstn (length l - Z.to_nat (- k)) l.

(** [sorted(l, key=key)]: a stable sort on an integer key. *)
Fixpoint insert_by {A} (key : A -> Z) (x : A) (l : list A) : list A :=
  match l with
  | [] => [x]
  | y :: l' => if key x <=? key y then x :: l else y :: insert_by key x l'
  end.

Definition sorted {A} (key : A -> Z) (l : list A) : list A :=
  foldr (insert_by key) [] l.

End PyList.

(** ** Python dictionaries, in insertion order *)

Module PyDict.

Definition dict (V : Type) : Type := list (string * V).

(** [d[k]], [None] standing for [KeyError]. *)
Fixpoint get {V} (d : dict V) (k : string) : option V :=
  match d with
  | [] => None
  | (k', v) :: d' => if String.eqb k k' then Some v else get d' k
  end.

(** [d[k] = v]: an existing key keeps its position. *)
Fixpoint set {V} (d : dict V) (k : string) (v : V) : dict V :=
  match d with
  | [] => [(k, v)]
  | (k', v') :: d' =>
      if String.eqb k k' then (k, v) :: d' else (k', v') :: set d' k v
  end.

Definition keys {V} (d : dict V) : list string := map fst d.

End PyDict.

(** ** Exceptions, results and the trace of effects *)

(** The instances of [Exception] the program distinguishes: the
    [aiohttp.ClientError] family and every other [Exception].  Process
    interrupts are not instances of [Exception] and are not modelled. *)
Inductive exn : Type :=
| ClientError (msg : string)
| OtherException (msg : string).

Definition exn_str (e : exn) : string :=
  match e with ClientError m => m | OtherException m => m end.

Inductive result (A : Type) : Type :=
| Ret (a : A)
| Raise (e : exn).
Arguments Ret {A} a.
Arguments Raise {A} e.

Inductive level : Type := DEBUG | INFO | WARNING | ERROR.

(** One piece of an f-string: literal text or an interpolated value.  The
    pictographs that open some of the source's messages are left out of the
    literal text. *)
Inductive chunk : Type :=
| Lit (s : string)
| Str (s : string)
| Int (n : Z)
| IntW (width : nat) (n : Z).   (* [{n:2d}] *)

(** The [locations] items of the webhook payload. *)
Record Location : Type := mkLocation {
  name : string;
  address : string;
  rank : Z
}.

(** The JSON body posted to the webhook. *)
Record Payload : Type := mkPayload {
  category : string;
  location_count : Z;
  locations : list Location;
  timestamp : string;
  booking_url : string;
  closest_location : option string
}.

Inductive event : Type :=
| EvLog (lv : level) (msg : list chunk)
| EvConnect (ws_endpoint : string)
| EvPost (url : string) (payload : Payload)
| EvSleep (seconds : Z).

(** A computation returns or raises, and leaves a trace. *)
Definition M (A : Type) : Type := result A * list event.

Definition ret {A} (a : A) : M A := (Ret a, []).
Definition raise {A} (e : exn) : M A := (Raise e, []).
Definition emit (ev : event) : M unit := (Ret tt, [ev]).
Definition log (lv : level) (msg : list chunk) : M unit := emit (EvLog lv msg).

(** An awaited external call whose answer is given. *)
Definition await {A} (r : result A) : M A := (r, []).

Definition bind {A B} (m : M A) (f : A -> M B) : M B :=
  match m with
  | (Ret a, t) => let '(r, t') := f a in (r, t ++ t')
  | (Raise e, t) => (Raise e, t)
  end.

(** [try: body except Exception as e: handler e] *)
Definition try_catch {A} (body : M A) (handler : exn -> M A) : M A :=
  match body with
  | (Ret a, t) => (Ret a, t)
  | (Raise e, t) => let '(r, t') := handler e in (r, t ++ t')
  end.

Notation "x <- m ;; k" := (bind m (fun x => k))
  (at level 100, m at next level, right associativity).
Notation "m ;;; k" := (bind m (fun _ => k))
  (at level 100, right associativity).

Definition value {A} (m : M A) : result A := fst m.
Definition trace {A} (m : M A) : list event := snd m.

(** ** Configuration *)

(** The values read from the environment when the module is loaded.  The
    two coordinates are kept in their printed form: they are only passed on
    to the browser and written to the log. *)
Record Config : Type := mkConfig {
  BROWSERLESS_HOST : string;
  BROWSERLESS_PORT : string;
  TOKEN : string;
  LONGITUDE : string;
  LATITUDE : string;
  CHECK_INTERVAL : Z;
  MAX_LOCATIONS : Z;
  HOME_ASSISTANT_URL : string;
  HA_WEBHOOK_ID : string;
  LOG_LEVEL : string
}.

Definition CATEGORIES : PyDict.dict Z := [("Knowledge Test", 6); ("Permits", 9)].

(** [MONITORED_LOCATIONS = set()] *)
Definition MONITORED_LOCATIONS_init : gset string := ∅.

(** ** The remote page, as the browser-automation calls see it *)

(** [text_content()] answers a string or [None]. *)
Record TextNode : Type := mkTextNode {
  text_content : result (option string)
}.

(** The [.No-Availability] element of an entry. *)
Record Marker : Type := mkMarker {
  is_visible : result bool
}.

(** The [div[title]] of an entry and what [query_selector] finds in it. *)
Record InnerDiv : Type := mkInnerDiv {
  q_first_child : result (option TextNode);        (* "div:first-child" *)
  q_form_control_child : result (option TextNode); (* ".form-control-child" *)
  q_no_availability : result (option Marker)       (* ".No-Availability" *)
}.

(** One [.QflowObjectItem] handle. *)
Record Element : Type := mkElement {
  q_div_title : result (option InnerDiv)           (* "div[title]" *)
}.

Record Button : Type := mkButton {
  click : result unit
}.

(** One browser session.  A field is the joint outcome of a run of
    consecutive awaited calls of the source (the first one that raises, if
    any). *)
Record Page : Type := mkPage {
  start_driver : result unit;          (* entering [async_playwright()] *)
  connect : result unit;               (* connect_over_cdp .. new_page *)
  goto_home : result unit;             (* goto .. click "#cmdMakeAppt" *)
  select_category : Z -> result unit;  (* wait_for_load_state .. click data-id *)
  click_next : result unit;            (* evaluate ".next-button" (and the waits
                                          that follow it during discovery) *)
  wait_networkidle : result unit;
  wait_domcontentloaded : result unit;
  settle : result unit;                (* wait_for_timeout(2000) *)
  query_list_view : result (option Button);  (* query_selector("text=List view") *)
  wait_list_view : result (option Button);   (* wait_for_selector("text=List view") *)
  wait_items : result unit;            (* wait_for_selector(".QflowObjectItem") *)
  query_items : result (list Element); (* query_selector_all(".QflowObjectItem") *)
  close : result unit                  (* browser.close() *)
}.

(** What one polling cycle meets: the session each probe gets, by category
    id, and, for the notifier call made for a category, by category name:
    the answer of the webhook endpoint (a status code or an exception) and
    what [datetime.now().isoformat()] reads in that call. *)
Record CycleEnv : Type := mkCycleEnv {
  probe_page : Z -> Page;
  webhook_response : string -> result Z;
  clock : string -> string
}.

(** The values of the [location_info] dictionary. *)
Record LocInfo : Type := mkLocInfo {
  info_address : string;
  info_rank : Z
}.

Definition banner : string := String.concat "" (repeat "=" 70).

Definition KeyError (k : string) : exn := OtherException k.
Definition IndexError : exn := OtherException "list index out of range".
Definition AttributeError : exn :=
  OtherException "'NoneType' object has no attribute 'strip'".

(** [(await node.text_content()).strip()] *)
Definition stripped_text (node : TextNode) : M string :=
  t <- await (text_content node) ;;
  match t with
  | Some s => ret (PyStr.strip s)
  | None => raise AttributeError
  end.

Section Monitor.

Variable cfg : Config.

Definition ws_endpoint : string :=
  "ws://" +:+ BROWSERLESS_HOST cfg +:+ ":" +:+ BROWSERLESS_PORT cfg
  +:+ "?token=" +:+ TOKEN cfg.

(** *** send_ha_webhook *)

Definition webhook_url : string :=
  HOME_ASSISTANT_URL cfg +:+ "/api/webhook/" +:+ HA_WEBHOOK_ID cfg.

Definition locations_data (locations_info : PyDict.dict LocInfo) : list Location :=
  map (fun '(name, info) => mkLocation name (info_address info) (info_rank info))
      (PyList.sorted (fun x => info_rank (snd x)) locations_info).

Definition make_payload (now : string) (category : string)
    (locations_info : PyDict.dict LocInfo) : Payload :=
  let locations_data := locations_data locations_info in
  {| category := category;
     location_count := Z.of_nat (length locations_data);
     locations := locations_data;
     timestamp := now;
     booking_url := "https://skiptheline.ncdot.gov/";
     closest_location :=
       match locations_data with
       | first :: _ => Some (name first)
       | [] => None
       end |}.

(** [response] is what [session.post] meets: a status code, or an
    exception (connection error, timeout). *)
Definition send_ha_webhook (now : string) (response : result Z)
    (category : string) (locations_info : PyDict.dict LocInfo) : M bool :=
  let payload := make_payload now category locations_info in
  try_catch
    (emit (EvPost webhook_url payload) ;;;
     status <- await response ;;
     if status =? 200 then
       log INFO [Lit "Webhook triggered successfully"] ;;;
       ret true
     else
       log WARNING [Lit "Webhook failed: HTTP "; Int status] ;;;
       ret false)
    (fun e =>
       match e with
       | ClientError _ =>
           log ERROR [Lit "Webhook connection error: "; Str (exn_str e)] ;;;
           ret false
       | OtherException _ =>
           log ERROR [Lit "Webhook error: "; Str (exn_str e)] ;;;
           ret false
       end).

(** *** fetch_nearby_locations *)

(** The body of the discovery loop for the entry at position [idx]:
    [Some] is the appended dictionary, [None] a skipped entry. *)
Definition parse_location (idx : Z) (location : Element) : M (option Location) :=
  try_catch
    (inner_div <- await (q_div_title location) ;;
     match inner_div with
     | None => ret None
     | Some inner_div =>
         name_div <- await (q_first_child inner_div) ;;
         match name_div with
         | None => ret None
         | Some name_div =>
             location_name <- stripped_text name_div ;;
             address_div <- await (q_form_control_child inner_div) ;;
             match address_div with
             | None => ret None
             | Some address_div =>
                 address <- stripped_text address_div ;;
                 if PyStr.truthy location_name && PyStr.truthy address then
                   log DEBUG [Lit "#"; IntW 2 idx; Lit " "; Str location_name] ;;;
                   ret (Some (mkLocation location_name address idx))
                 else ret None
             end
         end
     end)
    (fun e =>
       log DEBUG [Lit "Error parsing location: "; Str (exn_str e)] ;;;
       ret None).

(** [for idx, location in enumerate(locations_to_process, idx): ...],
    appending to [locations_list]. *)
Fixpoint parse_locations (idx : Z) (locations_to_process : list Element)
    (locations_list : list Location) : M (list Location) :=
  match locations_to_process with
  | [] => ret locations_list
  | location :: rest =>
      parsed <- parse_location idx location ;;
      parse_locations (idx + 1) rest
        (match parsed with
         | Some loc => locations_list ++ [loc]
         | None => locations_list
         end)
  end.

(** The statements under the outer [try] of [fetch_nearby_locations]. *)
Definition fetch_nearby_locations_body (page : Page) : M (list Location) :=
  await (start_driver page) ;;;
  emit (EvConnect ws_endpoint) ;;;
  await (connect page) ;;;
  log DEBUG [Lit "Navigating to homepage..."] ;;;
  await (goto_home page) ;;;
  log DEBUG [Lit "Selecting appointment type..."] ;;;
  await (select_category page 6) ;;;
  log DEBUG [Lit "Loading locations..."] ;;;
  await (click_next page) ;;;
  log DEBUG [Lit "Switching to list view..."] ;;;
  list_view_button <- await (query_list_view page) ;;
  match list_view_button with
  | Some button => await (click button)
  | None => ret tt
  end ;;;
  await (wait_items page) ;;;
  all_locations <- await (query_items page) ;;
  let locations_to_process := PyList.slice_to all_locations (MAX_LOCATIONS cfg) in
  log INFO [Lit "Processing "; Int (Z.of_nat (length locations_to_process));
            Lit " closest locations (out of ";
            Int (Z.of_nat (length all_locations)); Lit " total)"] ;;;
  locations_list <- parse_locations 1 locations_to_process [] ;;
  await (close page) ;;;
  ret locations_list.

Definition fetch_nearby_locations (page : Page) : M (list Location) :=
  try_catch
    (fetch_nearby_locations_body page)
    (fun e =>
       log ERROR [Lit "Error fetching locations: "; Str (exn_str e)] ;;;
       ret []).

(** *** check_category *)

(** The body of the probe loop for one entry: [Some] is the name appended
    to [locations_with_availability], [None] an entry that adds nothing. *)
Definition check_location (MONITORED_LOCATIONS : gset string)
    (location : Element) : M (option string) :=
  try_catch
    (inner_div <- await (q_div_title location) ;;
     match inner_div with
     | None => ret None
     | Some inner_div =>
         name_div <- await (q_first_child inner_div) ;;
         match name_div with
         | None => ret None
         | Some name_div =>
             location_name <- stripped_text name_div ;;
             if negb (bool_decide (location_name ∈ MONITORED_LOCATIONS)) then
               ret None
             else
               no_avail <- await (q_no_availability inner_div) ;;
               match no_avail with
               | Some no_avail =>
                   is_visible <- await (is_visible no_avail) ;;
                   if negb is_visible then
                     log DEBUG [Lit "Availability found at: "; Str location_name] ;;;
                     ret (Some location_name)
                   else ret None
               | None =>
                   log DEBUG [Lit "Availability found at: "; Str location_name] ;;;
                   ret (Some location_name)
               end
         end
     end)
    (fun e =>
       log DEBUG [Lit "Error checking location: "; Str (exn_str e)] ;;;
       ret None).

(** [for location in locations_to_check: ...] *)
Fixpoint check_locations (MONITORED_LOCATIONS : gset string)
    (locations_to_check : list Element)
    (locations_with_availability : list string) : M (list string) :=
  match locations_to_check with
  | [] => ret locations_with_availability
  | location :: rest =>
      found <- check_location MONITORED_LOCATIONS location ;;
      check_locations MONITORED_LOCATIONS rest
        (match found with
         | Some location_name => locations_with_availability ++ [location_name]
         | None => locations_with_availability
         end)
  end.

(** The statements under the outer [try] of [check_category]. *)
Definition check_category_body (MONITORED_LOCATIONS : gset string) (page : Page)
    (category_name : string) (category_id : Z) : M (list string) :=
  await (start_driver page) ;;;
  emit (EvConnect ws_endpoint) ;;;
  await (connect page) ;;;
  log DEBUG [Lit "Checking "; Str category_name; Lit "..."] ;;;
  await (goto_home page) ;;;
  await (select_category page category_id) ;;;
  await (click_next page) ;;;
  try_catch (await (wait_networkidle page))
            (fun _ => await (wait_domcontentloaded page)) ;;;
  await (settle page) ;;;
  try_catch
    (list_view_button <- await (wait_list_view page) ;;
     match list_view_button with
     | Some button => await (click button)
     | None => ret tt
     end)
    (fun _ =>
       log DEBUG [Lit "List view button not found, may already be in list view"]) ;;;
  await (wait_items page) ;;;
  all_locations <- await (query_items page) ;;
  let locations_to_check := PyList.slice_to all_locations (MAX_LOCATIONS cfg) in
  locations_with_availability <-
    check_locations MONITORED_LOCATIONS locations_to_check [] ;;
  await (close page) ;;;
  ret locations_with_availability.

Definition check_category (MONITORED_LOCATIONS : gset string) (page : Page)
    (category_name : string) (category_id : Z) : M (list string) :=
  try_catch
    (check_category_body MONITORED_LOCATIONS page category_name category_id)
    (fun e =>
       log ERROR [Str category_name; Lit " check failed: ";
                  Str (PyStr.prefix 100 (exn_str e))] ;;;
       ret []).

(** *** monitor_categories *)

(** [asyncio.gather] with [return_exceptions=True]: every task
    runs to its end and its outcome, value or exception, is collected.
    The tasks share no mutable state; their traces are recorded here in
    task order. *)
Definition capture {A} (task : M A) : M (result A) :=
  (Ret (value task), trace task).

Fixpoint gather {A} (tasks : list (M A)) : M (list (result A)) :=
  match tasks with
  | [] => ret []
  | task :: rest =>
      outcome <- capture task ;;
      results <- gather rest ;;
      ret (outcome :: results)
  end.

(** [location_info[x]] *)
Definition lookup_info (location_info : PyDict.dict LocInfo) (x : string) : M LocInfo :=
  match PyDict.get location_info x with
  | Some info => ret info
  | None => raise (KeyError x)
  end.

(** The keys [sorted] computes, one call of the key function per item. *)
Fixpoint rank_keys (location_info : PyDict.dict LocInfo)
    (available_locations : list string) : M (list (Z * string)) :=
  match available_locations with
  | [] => ret []
  | x :: rest =>
      info <- lookup_info location_info x ;;
      keyed <- rank_keys location_info rest ;;
      ret ((info_rank info, x) :: keyed)
  end.

(** [sorted(available_locations, key=lambda x: location_info[x]["rank"])] *)
Definition sorted_by_rank (location_info : PyDict.dict LocInfo)
    (available_locations : list string) : M (list string) :=
  keyed <- rank_keys location_info available_locations ;;
  ret (map snd (PyList.sorted fst keyed)).

(** [{loc_name: location_info[loc_name] for loc_name in sorted_locations}] *)
Fixpoint collect_info (location_info : PyDict.dict LocInfo)
    (sorted_locations : list string)
    (webhook_locations_info : PyDict.dict LocInfo) : M (PyDict.dict LocInfo) :=
  match sorted_locations with
  | [] => ret webhook_locations_info
  | loc_name :: rest =>
      info <- lookup_info location_info loc_name ;;
      collect_info location_info rest
        (PyDict.set webhook_locations_info loc_name info)
  end.

(** [for loc_name in sorted_locations: logger.info(..); logger.info(..)] *)
Fixpoint log_locations (location_info : PyDict.dict LocInfo)
    (sorted_locations : list string) : M unit :=
  match sorted_locations with
  | [] => ret tt
  | loc_name :: rest =>
      info <- lookup_info location_info loc_name ;;
      log INFO [Lit "   #"; IntW 2 (info_rank info); Lit " "; Str loc_name] ;;;
      log INFO [Lit "       "; Str (info_address info)] ;;;
      log_locations location_info rest
  end.

(** The body of the [for i, (category_name, _) in enumerate(..)] loop. *)
Definition handle_result (location_info : PyDict.dict LocInfo) (env : CycleEnv)
    (results : list (result (list string))) (i : nat)
    (category_name : string) : M unit :=
  match results !! i with
  | None => raise IndexError
  | Some (Raise e) =>
      log ERROR [Str category_name; Lit ": Error - "; Str (exn_str e)]
  | Some (Ret available_locations) =>
      match available_locations with
      | _ :: _ =>
          log INFO [Lit banner] ;;;
          log INFO [Lit "AVAILABILITY FOUND!"] ;;;
          log INFO [Lit "Category: "; Str category_name] ;;;
          log INFO [Lit "Locations with openings:"] ;;;
          sorted_locations <- sorted_by_rank location_info available_locations ;;
          webhook_locations_info <- collect_info location_info sorted_locations [] ;;
          log_locations location_info sorted_locations ;;;
          log INFO [Lit "Sending notification to Home Assistant..."] ;;;
          send_ha_webhook (clock env category_name)
            (webhook_response env category_name)
            category_name webhook_locations_info ;;;
          log INFO [Lit banner]
      | [] =>
          log INFO [Str category_name; Lit ": No availability"]
      end
  end.

Fixpoint handle_results (location_info : PyDict.dict LocInfo) (env : CycleEnv)
    (results : list (result (list string))) (i : nat)
    (categories : PyDict.dict Z) : M unit :=
  match categories with
  | [] => ret tt
  | (category_name, _) :: rest =>
      handle_result location_info env results i category_name ;;;
      handle_results location_info env results (S i) rest
  end.

(** One pass of the [while True] body. *)
Definition cycle (MONITORED_LOCATIONS : gset string)
    (location_info : PyDict.dict LocInfo) (env : CycleEnv) : M unit :=
  let tasks :=
    map (fun '(name, cat_id) =>
           check_category MONITORED_LOCATIONS (probe_page env cat_id) name cat_id)
        CATEGORIES in
  results <- gather tasks ;;
  handle_results location_info env results 0 CATEGORIES ;;;
  log DEBUG [Lit "Sleeping for "; Int (CHECK_INTERVAL cfg); Lit " seconds..."] ;;;
  emit (EvSleep (CHECK_INTERVAL cfg)).

(** [while True: ...] run against the environments of its first cycles;
    the list is the part of the unbounded run that is observed. *)
Fixpoint monitor_loop (MONITORED_LOCATIONS : gset string)
    (location_info : PyDict.dict LocInfo) (cycles : list CycleEnv) : M unit :=
  match cycles with
  | [] => ret tt
  | env :: rest =>
      cycle MONITORED_LOCATIONS location_info env ;;;
      monitor_loop MONITORED_LOCATIONS location_info rest
  end.

(** [for loc in locations_list: MONITORED_LOCATIONS.add(..); location_info[..] = ..] *)
Fixpoint register_locations (locations_list : list Location)
    (MONITORED_LOCATIONS : gset string) (location_info : PyDict.dict LocInfo)
    : gset string * PyDict.dict LocInfo :=
  match locations_list with
  | [] => (MONITORED_LOCATIONS, location_info)
  | loc :: rest =>
      register_locations rest
        ({[name loc]} ∪ MONITORED_LOCATIONS)
        (PyDict.set location_info (name loc) (mkLocInfo (address loc) (rank loc)))
  end.

Definition monitor_categories (discovery : Page) (cycles : list CycleEnv) : M unit :=
  log INFO [Lit banner] ;;;
  log INFO [Lit "Starting NC DMV Appointment Monitor"] ;;;
  log INFO [Lit "Location: ("; Str (LATITUDE cfg); Lit ", "; Str (LONGITUDE cfg); Lit ")"] ;;;
  log INFO [Lit "Check interval: "; Int (CHECK_INTERVAL cfg); Lit " seconds"] ;;;
  log INFO [Lit "Monitoring closest: "; Int (MAX_LOCATIONS cfg); Lit " locations"] ;;;
  log INFO [Lit "Categories: "; Str (String.concat ", " (PyDict.keys CATEGORIES))] ;;;
  log INFO [Lit "Home Assistant: "; Str (HOME_ASSISTANT_URL cfg)] ;;;
  log INFO [Lit "Webhook ID: "; Str (HA_WEBHOOK_ID cfg)] ;;;
  log INFO [Lit "Log Level: "; Str (LOG_LEVEL cfg)] ;;;
  log INFO [Lit banner] ;;;
  log INFO [Lit "Fetching nearby DMV locations..."] ;;;
  locations_list <- fetch_nearby_locations discovery ;;
  match locations_list with
  | [] =>
      log ERROR [Lit "No locations found. Exiting..."]
  | _ :: _ =>
      let '(MONITORED_LOCATIONS, location_info) :=
        register_locations locations_list MONITORED_LOCATIONS_init [] in
      log INFO [Lit "Monitoring "; Int (Z.of_nat (size MONITORED_LOCATIONS));
                Lit " locations"] ;;;
      log INFO [Lit "Starting availability monitoring..."] ;;;
      monitor_loop MONITORED_LOCATIONS location_info cycles
  end.

End Monitor.

(** ** Observations on runs *)

Definition is_connect (ev : event) : bool :=
  match ev with EvConnect _ => true | _ => false end.

Definition is_sleep (ev : event) : bool :=
  match ev with EvSleep _ => true | _ => false end.

(** The bodies of the webhook requests of a trace, in order. *)
Definition posts (t : list event) : list Payload :=
  omap (fun ev => match ev with EvPost _ p => Some p | _ => None end) t.

(** What the probe loop adds for one entry. *)
Definition available_name (MONITORED_LOCATIONS : gset string) (location : Element)
    : option string :=
  match value (check_location MONITORED_LOCATIONS location) with
  | Ret found => found
  | Raise _ => None
  end.

(** The name and address the discovery loop keeps for one entry, if any. *)
Definition entry_fields (location : Element) : option (string * string) :=
  match value (parse_location 0 location) with
  | Ret (Some loc) => Some (name loc, address loc)
  | _ => None
  end.

(** The kept entries of a window, each with its position counted from [idx]. *)
Fixpoint ranked (idx : Z) (window : list Element) : list Location :=
  match window with
  | [] => []
  | location :: rest =>
      match entry_fields location with
      | Some (n, a) => mkLocation n a idx :: ranked (idx + 1) rest
      | None => ranked (idx + 1) rest
      end
  end.

(** The monitored set and [location_info] as [monitor_categories] builds
    them from the discovered list. *)
Definition monitored_state (locations_list : list Location)
    : gset string * PyDict.dict LocInfo :=
  register_locations locations_list MONITORED_LOCATIONS_init [].

(** The list a probe hands to the orchestrator. *)
Definition probe_result (cfg : Config) (MONITORED_LOCATIONS : gset string)
    (env : CycleEnv) (category_name : string) (category_id : Z) : list string :=
  match value (check_category cfg MONITORED_LOCATIONS (probe_page env category_id)
                 category_name category_id) with
  | Ret available_locations => available_locations
  | Raise _ => []
  end.

(** The marker lookup and, if a marker is found, its visibility test both
    answer. *)
Definition marker_answered (inner_div : InnerDiv) : bool :=
  match q_no_availability inner_div with
  | Ret None => true
  | Ret (Some no_avail) =>
      match is_visible no_avail with Ret _ => true | Raise _ => false end
  | Raise _ => false
  end.

(** The entry carries a marker that is currently visible. *)
Definition visible_marker (inner_div : InnerDiv) : bool :=
  match q_no_availability inner_div with
  | Ret (Some no_avail) =>
      match is_visible no_avail with Ret v => v | Raise _ => false end
  | _ => false
  end.

(** *** The specification's reading of two notions, for comparison *)

(** A success status code in the sense of HTTP: the 2xx class. *)
Definition spec_success_status (status : Z) : bool :=
  (200 <=? status) && (status <=? 299).

(** The enumeration window as the specification words it: the maximum is
    counted over monitored entries only. *)
Definition spec_entry_name (location : Element) : option string :=
  match q_div_title location with
  | Ret (Some inner_div) =>
      match q_first_child inner_div with
      | Ret (Some name_div) =>
          match text_content name_div with
          | Ret (Some s) => Some (PyStr.strip s)
          | _ => None
          end
      | _ => None
      end
  | _ => None
  end.

Definition spec_window (MONITORED_LOCATIONS : gset string) (max_count : Z)
    (all_locations : list Element) : list Element :=
  PyList.slice_to
    (List.filter (fun location =>
                    match spec_entry_name location with
                    | Some n => bool_decide (n ∈ MONITORED_LOCATIONS)
                    | None => false
                    end) all_locations)
    max_count.

(** *** Proof automation *)

Definition is_log (ev : event) : bool :=
  match ev with EvLog _ _ => true | _ => false end.

(** A computation whose only effects are logger calls. *)
Definition logs_only {A} (m : M A) : Prop := forallb is_log (trace m) = true.

(** Case analysis over everything one entry's extraction can meet. *)
Ltac run_entry :=
  unfold check_location, parse_location, stripped_text, try_catch, bind, await,
    ret, raise, log, emit, value, trace;
  repeat case_match; simplify_eq/=.

(** The payload [p] reports category [category_name] with exactly the
    names of [available], and at least one of them. *)
Definition notifies (p : Payload) (category_name : string)
    (available : list string) : Prop :=
  category p = category_name /\
  locations p <> [] /\
  forall x, In x (map name (locations p)) <-> In x available.

(** A name [location_info] has an entry for. *)
Definition known (location_info : PyDict.dict LocInfo) (x : string) : Prop :=
  is_Some (PyDict.get location_info x).

(** Truth value of a list: [bool(l)]. *)
Definition nonempty {A} (l : list A) : bool :=
  match l with [] => false | _ :: _ => true end.

(** The categories of [categories] whose probe result is not empty. *)
Definition with_availability (res : string -> Z -> list string)
    (categories : PyDict.dict Z) : PyDict.dict Z :=
  List.filter (fun c => nonempty (res (fst c) (snd c))) categories.

(** The monitored set and the [location_info] dictionary of a run whose
    discovery returned [locations_list]. *)
Definition monitored_set (locations_list : list Location) : gset string :=
  fst (monitored_state locations_list).

Definition location_info_of (locations_list : list Location) : PyDict.dict LocInfo :=
  snd (monitored_state locations_list).

(** The specification's discovery property: as many locations as the
    smaller of the maximum and the number of listed entries, ranked
    1, 2, ... without a gap. *)
Definition spec_discovery_ranks (cfg : Config) (page : Page) : Prop :=
  forall all_locations locations_list,
    query_items page = Ret all_locations ->
    value (fetch_nearby_locations_body cfg page) = Ret locations_list ->
    Exists (fun location => is_Some (entry_fields location)) all_locations ->
    Z.of_nat (length locations_list)
    = Z.min (MAX_LOCATIONS cfg) (Z.of_nat (length all_locations)) /\
    map rank locations_list = map Z.of_nat (seq 1 (length locations_list)).

(** The specification's probe window: the probe reports on the first
    entries counted among the monitored ones only. *)
Definition spec_probe_window (cfg : Config) (mon : gset string) (page : Page)
    (category_name : string) (category_id : Z) : Prop :=
  forall all_locations found,
    query_items page = Ret all_locations ->
    value (check_category_body cfg mon page category_name category_id) = Ret found ->
    found = omap (available_name mon)
              (spec_window mon (MAX_LOCATIONS cfg) all_locations).

(** *** Sample inputs *)

Definition example_cfg (max_locations : Z) : Config :=
  mkConfig "localhost" "3000" "" "-78.6382" "35.7796" 15 max_locations
           "http://homeassistant.local:8123" "dmv_appointment_found" "INFO".

Definition text (s : string) : result (option TextNode) :=
  Ret (Some (mkTextNode (Ret (Some s)))).

Definition no_marker : result (option Marker) := Ret None.

Definition marker (visible : bool) : result (option Marker) :=
  Ret (Some (mkMarker (Ret visible))).

(** A well-formed entry of the list view. *)
Definition entry (n a : string) (no_avail : result (option Marker)) : Element :=
  mkElement (Ret (Some (mkInnerDiv (text n) (text a) no_avail))).

(** An entry without its [div[title]]. *)
Definition broken_entry : Element := mkElement (Ret None).

(** A session in which every call answers and the list view shows [items]. *)
Definition listing (items : list Element) : Page :=
  mkPage (Ret tt) (Ret tt) (Ret tt) (fun _ => Ret tt) (Ret tt) (Ret tt) (Ret tt)
         (Ret tt) (Ret None) (Ret None) (Ret tt) (Ret items) (Ret tt).

(** A session whose navigation times out on the category selector. *)
Definition timed_out : Page :=
  mkPage (Ret tt) (Ret tt) (Ret tt)
         (fun _ => Raise (OtherException "Timeout 30000ms exceeded."))
         (Ret tt) (Ret tt) (Ret tt) (Ret tt)
         (Ret None) (Ret None) (Ret tt) (Ret []) (Ret tt).

Definition durham : Element := entry " Durham " "101 S Miami Blvd" no_marker.
Definition cary : Element := entry "Cary" "1387 SE Maynard Rd" no_marker.
Definition raleigh : Element := entry "Raleigh East" "4121 New Bern Ave" (marker true).

(** The list a discovery that finds only Durham returns. *)
Definition durham_only : list Location :=
  [mkLocation "Durham" "101 S Miami Blvd" 1].

(** A cycle in which the probe of category 6 times out while the other
    probe lists Durham without a marker. *)
Definition one_failing_cycle : CycleEnv :=
  mkCycleEnv (fun category_id => if category_id =? 6 then timed_out else listing [durham])
             (fun _ => Ret 200) (fun _ => "2026-01-05T08:00:00").


(** *** Navigation outcomes *)

(** The connection a call makes: one when the driver starts, none when it
    does not. *)
Definition connection (cfg : Config) (page : Page) : list event :=
  match start_driver page with
  | Ret _ => [EvConnect (ws_endpoint cfg)]
  | Raise _ => []
  end.

(** An awaited call answered instead of raising. *)
Definition answers {A} (r : result A) : bool :=
  match r with Ret _ => true | Raise _ => false end.

(** The entries [query_selector_all] hands over, none if it raises. *)
Definition listed (page : Page) : list Element :=
  match query_items page with Ret items => items | Raise _ => [] end.

(** Every awaited call of [check_category] outside its two inner [try]
    blocks answers, and one of the two load-state waits does. *)
Definition probe_navigates (page : Page) (category_id : Z) : bool :=
  answers (start_driver page) && answers (connect page)
  && answers (goto_home page)
  && answers (select_category page category_id) && answers (click_next page)
  && (answers (wait_networkidle page) || answers (wait_domcontentloaded page))
  && answers (settle page) && answers (wait_items page)
  && answers (query_items page) && answers (close page).

(** Every awaited call of [fetch_nearby_locations] outside the per-entry
    [try] answers; the list-view button is clicked only when it is found. *)
Definition discovery_navigates (page : Page) : bool :=
  answers (start_driver page) && answers (connect page)
  && answers (goto_home page)
  && answers (select_category page 6) && answers (click_next page)
  && match query_list_view page with
     | Ret (Some button) => answers (click button)
     | Ret None => true
     | Raise _ => false
     end
  && answers (wait_items page)
  && answers (query_items page) && answers (close page).

(** *** Notions used by the further properties *)

(** The last location of the discovered list that bears the name [k]. *)
Fixpoint last_named (locations_list : list Location) (k : string) : option Location :=
  match locations_list with
  | [] => None
  | loc :: rest =>
      match last_named rest k with
      | Some later => Some later
      | None => if String.eqb k (name loc) then Some loc else None
      end
  end.

(** The dictionary [d] has each key once, and its values are those
    [location_info] holds for these keys. *)
Definition joined (location_info d : PyDict.dict LocInfo) : Prop :=
  NoDup (PyDict.keys d) /\
  forall k v, In (k, v) d -> PyDict.get location_info k = Some v.

(** What a posted payload owes to the run: the timestamp [now] read in
    its notifier call, the fixed booking URL, one entry per name, and for
    each entry the address and rank of the last discovered location of that
    name. *)
Definition payload_from (locations_list : list Location) (now : string)
    (p : Payload) : Prop :=
  timestamp p = now /\
  booking_url p = "https://skiptheline.ncdot.gov/" /\
  location_count p = Z.of_nat (length (locations p)) /\
  NoDup (map name (locations p)) /\
  Forall (fun loc => last_named locations_list (name loc) = Some loc) (locations p).

(** A browser connection or a sleep. *)
Definition is_session (ev : event) : bool := is_connect ev || is_sleep ev.

(** A computation that neither connects to the browser nor sleeps. *)
Definition sessionless {A} (m : M A) : Prop :=
  List.filter is_session (trace m) = [].

(** The entry's marker lookup answers and shows no visible marker. *)
Definition open_entry (location : Element) : bool :=
  match q_div_title location with
  | Ret (Some inner_div) => marker_answered inner_div && negb (visible_marker inner_div)
  | _ => false
  end.

(** A session in which everything answers except [browser.close()]. *)
Definition close_fails (items : list Element) : Page :=
  mkPage (Ret tt) (Ret tt) (Ret tt) (fun _ => Ret tt) (Ret tt) (Ret tt) (Ret tt)
         (Ret tt) (Ret None) (Ret None) (Ret tt) (Ret items)
         (Raise (OtherException "Target page, context or browser has been closed")).

(** ** The monad: values and traces *)

Lemma value_bind {A B} (m : M A) (f : A -> M B) :
  value (bind m f) =
  match value m with Ret a => value (f a) | Raise e => Raise e end.
Proof.
  destruct m as [[a|e] t]; cbn; [|reflexivity].
  destruct (f a); reflexivity.
Qed.

Lemma trace_bind {A B} (m : M A) (f : A -> M B) :
  trace (bind m f) =
  match value m with Ret a => trace m ++ trace (f a) | Raise _ => trace m end.
Proof.
  destruct m as [[a|e] t]; cbn; [|reflexivity].
  destruct (f a); reflexivity.
Qed.

Lemma value_try_catch {A} (m : M A) (h : exn -> M A) :
  value (try_catch m h) =
  match value m with Ret a => Ret a | Raise e => value (h e) end.
Proof.
  destruct m as [[a|e] t]; cbn; [reflexivity|].
  destruct (h e); reflexivity.
Qed.

Lemma trace_try_catch {A} (m : M A) (h : exn -> M A) :
  trace (try_catch m h) =
  match value m with Ret _ => trace m | Raise e => trace m ++ trace (h e) end.
Proof.
  destruct m as [[a|e] t]; cbn; [reflexivity|].
  destruct (h e); reflexivity.
Qed.

Lemma value_await {A} (r : result A) : value (await r) = r.
Proof. reflexivity. Qed.

Lemma bind_await_ret {A B} (a : A) (f : A -> M B) : bind (await (Ret a)) f = f a.
Proof. cbn. destruct (f a). reflexivity. Qed.

Lemma bind_await_raise {A B} (e : exn) (f : A -> M B) :
  bind (await (Raise e)) f = (Raise e, []).
Proof. reflexivity. Qed.

Lemma value_ret {A} (a : A) : value (ret a) = Ret a.
Proof. reflexivity. Qed.

Lemma value_raise {A} (e : exn) : value (@raise A e) = Raise e.
Proof. reflexivity. Qed.

Lemma value_log lv msg : value (log lv msg) = Ret tt.
Proof. reflexivity. Qed.

Lemma value_emit ev : value (emit ev) = Ret tt.
Proof. reflexivity. Qed.

(** Steps through the value of a computation, branching on each external
    answer it meets. *)
Ltac value_run :=
  repeat first
    [ progress rewrite ?value_bind, ?value_try_catch, ?value_await, ?value_ret,
        ?value_raise, ?value_log, ?value_emit
    | progress cbv beta zeta
    | case_match; try discriminate ].

Lemma posts_app (t1 t2 : list event) : posts (t1 ++ t2) = posts t1 ++ posts t2.
Proof. apply omap_app. Qed.

Lemma trace_emit_bind {B} (ev : event) (k : M B) :
  trace (emit ev ;;; k) = ev :: trace k.
Proof. destruct k; reflexivity. Qed.

Lemma value_emit_bind {B} (ev : event) (k : M B) :
  value (emit ev ;;; k) = value k.
Proof. destruct k; reflexivity. Qed.

Lemma logs_only_ret {A} (a : A) : logs_only (ret a).
Proof. reflexivity. Qed.

Lemma logs_only_raise {A} (e : exn) : logs_only (@raise A e).
Proof. reflexivity. Qed.

Lemma logs_only_await {A} (r : result A) : logs_only (await r).
Proof. reflexivity. Qed.

Lemma logs_only_log lv msg : logs_only (log lv msg).
Proof. reflexivity. Qed.

Lemma logs_only_bind {A B} (m : M A) (f : A -> M B) :
  logs_only m -> (forall a, logs_only (f a)) -> logs_only (bind m f).
Proof.
  unfold logs_only. intros Hm Hf. rewrite trace_bind.
  destruct (value m); [|assumption].
  rewrite forallb_app, Hm. apply Hf.
Qed.

Lemma logs_only_try_catch {A} (m : M A) (h : exn -> M A) :
  logs_only m -> (forall e, logs_only (h e)) -> logs_only (try_catch m h).
Proof.
  unfold logs_only. intros Hm Hh. rewrite trace_try_catch.
  destruct (value m); [assumption|].
  rewrite forallb_app, Hm. apply Hh.
Qed.

Ltac logs_step :=
  first [ apply logs_only_ret | apply logs_only_raise | apply logs_only_await
        | apply logs_only_log
        | apply logs_only_bind; [|intros ?]
        | apply logs_only_try_catch; [|intros ?]
        | case_match ].

Lemma posts_logs (t : list event) : forallb is_log t = true -> posts t = [].
Proof.
  induction t as [|ev t IH]; [reflexivity|].
  cbn. destruct ev; cbn; try discriminate; auto.
Qed.

Lemma filter_logs (P : event -> bool) (t : list event) :
  (forall lv msg, P (EvLog lv msg) = false) ->
  forallb is_log t = true -> List.filter P t = [].
Proof.
  intros HP. induction t as [|ev t IH]; [reflexivity|].
  cbn. destruct ev; cbn; try discriminate.
  rewrite HP. auto.
Qed.

(** ** Strings, slices, sorting, dictionaries *)

Lemma truthy_nonempty (s : string) : PyStr.truthy s = true <-> s <> "".
Proof. destruct s; cbn; split; congruence. Qed.

Lemma rstrip_idem (s : string) : PyStr.rstrip (PyStr.rstrip s) = PyStr.rstrip s.
Proof.
  induction s as [|c s IH]; [reflexivity|].
  cbn. destruct (PyStr.rstrip s) as [|c' r] eqn:E.
  - destruct (PyStr.is_space c) eqn:Ec; [reflexivity|].
    cbn. rewrite Ec. reflexivity.
  - cbn [PyStr.rstrip] in *. rewrite IH. reflexivity.
Qed.

Lemma rstrip_head (c : ascii) (s : string) :
  PyStr.is_space c = false ->
  exists r, PyStr.rstrip (String c s) = String c r.
Proof.
  intros Hc. cbn. destruct (PyStr.rstrip s); rewrite ?Hc; eauto.
Qed.

Lemma lstrip_head (s : string) :
  PyStr.lstrip s = "" \/
  exists c r, PyStr.lstrip s = String c r /\ PyStr.is_space c = false.
Proof.
  induction s as [|c s IH]; [left; reflexivity|].
  cbn. destruct (PyStr.is_space c) eqn:Ec; [assumption|].
  right. eauto.
Qed.

Lemma strip_idem (s : string) : PyStr.strip (PyStr.strip s) = PyStr.strip s.
Proof.
  unfold PyStr.strip.
  destruct (lstrip_head s) as [->|(c & r & -> & Hc)]; [reflexivity|].
  destruct (rstrip_head c r Hc) as [r' Hr].
  rewrite Hr. cbn [PyStr.lstrip]. rewrite Hc, <- Hr.
  apply rstrip_idem.
Qed.

Lemma slice_to_firstn {A} (l : list A) (k : Z) :
  0 <= k -> PyList.slice_to l k = firstn (Z.to_nat k) l.
Proof.
  intros Hk. unfold PyList.slice_to.
  destruct (Z.leb_spec 0 k); [reflexivity|lia].
Qed.

Lemma slice_to_length {A} (l : list A) (k : Z) :
  0 <= k ->
  Z.of_nat (length (PyList.slice_to l k)) = Z.min k (Z.of_nat (length l)).
Proof.
  intros Hk. rewrite slice_to_firstn by assumption.
  rewrite length_firstn. lia.
Qed.

Lemma slice_to_lookup {A} (l : list A) (k : Z) (i : nat) (x : A) :
  0 <= k ->
  PyList.slice_to l k !! i = Some x <-> (Z.of_nat i < k /\ l !! i = Some x).
Proof.
  intros Hk. rewrite slice_to_firstn by assumption.
  change (firstn (Z.to_nat k) l) with (take (Z.to_nat k) l).
  rewrite lookup_take_Some. split; intros [? ?]; split; auto; lia.
Qed.

Lemma insert_by_perm {A} (key : A -> Z) (x : A) (l : list A) :
  Permutation (PyList.insert_by key x l) (x :: l).
Proof.
  induction l as [|y l IH]; cbn; [reflexivity|].
  destruct (key x <=? key y); [reflexivity|].
  rewrite IH. apply perm_swap.
Qed.

Lemma sorted_perm {A} (key : A -> Z) (l : list A) :
  Permutation (PyList.sorted key l) l.
Proof.
  induction l as [|x l IH]; cbn; [reflexivity|].
  rewrite insert_by_perm. apply perm_skip, IH.
Qed.

Lemma insert_by_sorted {A} (key : A -> Z) (x : A) (l : list A) :
  StronglySorted (fun a b => key a <= key b) l ->
  StronglySorted (fun a b => key a <= key b) (PyList.insert_by key x l).
Proof.
  induction 1 as [|y l Hl IH Hy]; cbn.
  - repeat constructor.
  - destruct (Z.leb_spec (key x) (key y)) as [Hxy|Hxy].
    + constructor; [constructor; assumption|].
      constructor; [assumption|].
      eapply Forall_impl; [exact Hy|]. cbn. intros; lia.
    + constructor; [assumption|].
      eapply Permutation_Forall; [symmetry; apply insert_by_perm|].
      constructor; [lia|assumption].
Qed.

Lemma sorted_sorted {A} (key : A -> Z) (l : list A) :
  StronglySorted (fun a b => key a <= key b) (PyList.sorted key l).
Proof.
  induction l as [|x l IH]; cbn; [constructor|].
  apply insert_by_sorted, IH.
Qed.

Lemma dict_get_In {V} (d : PyDict.dict V) (k : string) :
  is_Some (PyDict.get d k) <-> In k (PyDict.keys d).
Proof.
  induction d as [|[k' v] d IH]; cbn.
  - split; [intros [? ?]; discriminate|tauto].
  - destruct (String.eqb_spec k k') as [->|Hne].
    + split; eauto.
    + rewrite IH. split; [tauto|]. intros [?|?]; [congruence|assumption].
Qed.

Lemma dict_set_keys {V} (d : PyDict.dict V) (k : string) (v : V) (x : string) :
  In x (PyDict.keys (PyDict.set d k v)) <-> x = k \/ In x (PyDict.keys d).
Proof.
  induction d as [|[k' v'] d IH]; cbn.
  - split; intros [?|?]; auto; tauto.
  - destruct (String.eqb_spec k k') as [->|Hne]; cbn.
    + split; [intros [?|?]; auto|intros [?|[?|?]]; auto].
    + rewrite IH. split; [intros [?|[?|?]]; auto|intros [?|[?|?]]; auto].
Qed.

(** ** Discovery: one entry, the loop, the whole call *)

Lemma parse_location_value (idx : Z) (location : Element) :
  value (parse_location idx location) =
  Ret (match entry_fields location with
       | Some (n, a) => Some (mkLocation n a idx)
       | None => None
       end).
Proof. unfold entry_fields. run_entry; reflexivity. Qed.

Lemma parse_location_logs (idx : Z) (location : Element) :
  logs_only (parse_location idx location).
Proof. unfold logs_only. run_entry; reflexivity. Qed.

Lemma entry_fields_stripped (location : Element) (n a : string) :
  entry_fields location = Some (n, a) ->
  n <> "" /\ a <> "" /\ PyStr.strip n = n /\ PyStr.strip a = a.
Proof.
  unfold entry_fields. run_entry; intros; simplify_eq/=.
  match goal with
  | H : PyStr.truthy _ && PyStr.truthy _ = true |- _ =>
      apply andb_true_iff in H; destruct H as [Hn Ha]
  end.
  apply truthy_nonempty in Hn. apply truthy_nonempty in Ha.
  repeat split; auto using strip_idem.
Qed.

Lemma parse_locations_value (idx : Z) (window : list Element) (acc : list Location) :
  value (parse_locations idx window acc) = Ret (acc ++ ranked idx window).
Proof.
  revert idx acc. induction window as [|location rest IH]; intros idx acc; cbn.
  - rewrite app_nil_r. reflexivity.
  - rewrite value_bind, parse_location_value, IH.
    destruct (entry_fields location) as [[n a]|].
    + rewrite <- app_assoc. reflexivity.
    + reflexivity.
Qed.

Lemma parse_locations_logs (idx : Z) (window : list Element) (acc : list Location) :
  logs_only (parse_locations idx window acc).
Proof.
  revert idx acc. induction window as [|location rest IH]; intros idx acc; cbn.
  - reflexivity.
  - apply logs_only_bind; [apply parse_location_logs|intros ?; apply IH].
Qed.

Lemma ranked_ranks (idx : Z) (window : list Element) (loc : Location) :
  In loc (ranked idx window) ->
  exists (i : nat) (location : Element),
    window !! i = Some location /\
    entry_fields location = Some (name loc, address loc) /\
    rank loc = idx + Z.of_nat i.
Proof.
  revert idx. induction window as [|location rest IH]; intros idx; cbn; [tauto|].
  destruct (entry_fields location) as [[n a]|] eqn:E.
  - intros [<-|Hin].
    + exists 0%nat, location. cbn. repeat split; auto. lia.
    + destruct (IH _ Hin) as (i & l' & Hi & Hf & Hr).
      exists (S i), l'. repeat split; auto. lia.
  - intros Hin. destruct (IH _ Hin) as (i & l' & Hi & Hf & Hr).
    exists (S i), l'. repeat split; auto. lia.
Qed.

Lemma ranked_bounds (idx : Z) (window : list Element) :
  Forall (fun loc => idx <= rank loc < idx + Z.of_nat (length window))
         (ranked idx window).
Proof.
  apply Forall_forall. intros loc Hin.
  apply list_elem_of_In, ranked_ranks in Hin.
  destruct Hin as (i & l' & Hi & _ & Hr).
  apply lookup_lt_Some in Hi. lia.
Qed.

Lemma ranked_increasing (idx : Z) (window : list Element) :
  StronglySorted Z.lt (map rank (ranked idx window)).
Proof.
  revert idx. induction window as [|location rest IH]; intros idx; cbn.
  - constructor.
  - destruct (entry_fields location) as [[n a]|]; [|apply IH].
    cbn. constructor; [apply IH|].
    apply Forall_map. eapply Forall_impl; [apply ranked_bounds|].
    cbn. intros; lia.
Qed.

Lemma ranked_length (idx : Z) (window : list Element) :
  (length (ranked idx window) <= length window)%nat.
Proof.
  revert idx. induction window as [|location rest IH]; intros idx; cbn; [lia|].
  destruct (entry_fields location) as [[n a]|]; cbn; specialize (IH (idx + 1)); lia.
Qed.

Lemma ranked_all_kept (idx : Z) (window : list Element) :
  Forall (fun location => is_Some (entry_fields location)) window ->
  map rank (ranked idx window) =
  map (fun i => idx + Z.of_nat i) (seq 0 (length window)).
Proof.
  intros Hall. revert idx.
  induction Hall as [|location rest [[n a] Hf] Hall IH]; intros idx; cbn; [reflexivity|].
  rewrite Hf. cbn. f_equal; [f_equal; lia|].
  rewrite IH, <- seq_shift, map_map.
  apply map_ext. intros; lia.
Qed.

Lemma fetch_body_value (cfg : Config) (page : Page)
    (all_locations : list Element) (locations_list : list Location) :
  query_items page = Ret all_locations ->
  value (fetch_nearby_locations_body cfg page) = Ret locations_list ->
  locations_list = ranked 1 (PyList.slice_to all_locations (MAX_LOCATIONS cfg)).
Proof.
  intros Hq. unfold fetch_nearby_locations_body. value_run.
  all: rewrite parse_locations_value in *; intros; simplify_eq; reflexivity.
Qed.

Lemma fetch_body_reaches_items (cfg : Config) (page : Page)
    (locations_list : list Location) :
  value (fetch_nearby_locations_body cfg page) = Ret locations_list ->
  exists all_locations, query_items page = Ret all_locations.
Proof.
  unfold fetch_nearby_locations_body. value_run; eauto.
Qed.

Lemma fetch_total (cfg : Config) (page : Page) :
  value (fetch_nearby_locations cfg page) =
  Ret (match value (fetch_nearby_locations_body cfg page) with
       | Ret locations_list => locations_list
       | Raise _ => []
       end).
Proof.
  unfold fetch_nearby_locations. rewrite value_try_catch.
  destruct (value (fetch_nearby_locations_body cfg page)); reflexivity.
Qed.

Lemma fetch_trace (cfg : Config) (page : Page) :
  exists t,
    trace (fetch_nearby_locations cfg page) = connection cfg page ++ t /\
    forallb is_log t = true.
Proof.
  unfold fetch_nearby_locations, connection. rewrite trace_try_catch.
  unfold fetch_nearby_locations_body.
  destruct (start_driver page) as [[]|e];
    [rewrite bind_await_ret|rewrite bind_await_raise; eexists; split; reflexivity].
  rewrite trace_emit_bind, value_emit_bind.
  match goal with |- context [trace ?m] => assert (Hlogs : logs_only m) end.
  { repeat logs_step. apply parse_locations_logs. }
  match type of Hlogs with logs_only ?m => destruct (value m) end.
  - eexists. split; [reflexivity|exact Hlogs].
  - eexists. split; [reflexivity|].
    rewrite forallb_app. unfold logs_only in Hlogs. rewrite Hlogs. reflexivity.
Qed.

(** ** The probe: one entry, the loop, the whole call *)

Lemma check_location_value (mon : gset string) (location : Element) :
  value (check_location mon location) = Ret (available_name mon location).
Proof. unfold available_name. run_entry; reflexivity. Qed.

Lemma check_location_logs (mon : gset string) (location : Element) :
  logs_only (check_location mon location).
Proof. unfold logs_only. run_entry; reflexivity. Qed.

Lemma available_name_monitored (mon : gset string) (location : Element) (x : string) :
  available_name mon location = Some x -> x ∈ mon.
Proof.
  unfold available_name. run_entry; intros; simplify_eq/=.
  all: match goal with
       | H : negb (bool_decide _) = false |- _ =>
           apply negb_false_iff, bool_decide_eq_true in H; exact H
       end.
Qed.

Lemma check_locations_value (mon : gset string) (window : list Element)
    (acc : list string) :
  value (check_locations mon window acc) =
  Ret (acc ++ omap (available_name mon) window).
Proof.
  revert acc. induction window as [|location rest IH]; intros acc; cbn.
  - rewrite app_nil_r. reflexivity.
  - rewrite value_bind, check_location_value, IH.
    destruct (available_name mon location).
    + rewrite <- app_assoc. reflexivity.
    + reflexivity.
Qed.

Lemma check_locations_logs (mon : gset string) (window : list Element)
    (acc : list string) :
  logs_only (check_locations mon window acc).
Proof.
  revert acc. induction window as [|location rest IH]; intros acc; cbn.
  - reflexivity.
  - apply logs_only_bind; [apply check_location_logs|intros ?; apply IH].
Qed.

Lemma check_body_value (cfg : Config) (mon : gset string) (page : Page)
    (category_name : string) (category_id : Z)
    (all_locations : list Element) (found : list string) :
  query_items page = Ret all_locations ->
  value (check_category_body cfg mon page category_name category_id) = Ret found ->
  found = omap (available_name mon)
            (PyList.slice_to all_locations (MAX_LOCATIONS cfg)).
Proof.
  intros Hq. unfold check_category_body. value_run.
  all: rewrite check_locations_value in *; intros; simplify_eq; reflexivity.
Qed.

Lemma check_body_reaches_items (cfg : Config) (mon : gset string) (page : Page)
    (category_name : string) (category_id : Z) (found : list string) :
  value (check_category_body cfg mon page category_name category_id) = Ret found ->
  exists all_locations, query_items page = Ret all_locations.
Proof.
  unfold check_category_body. value_run; eauto.
Qed.

Lemma check_category_total (cfg : Config) (mon : gset string) (page : Page)
    (category_name : string) (category_id : Z) :
  value (check_category cfg mon page category_name category_id) =
  Ret (match value (check_category_body cfg mon page category_name category_id) with
       | Ret found => found
       | Raise _ => []
       end).
Proof.
  unfold check_category. rewrite value_try_catch.
  destruct (value (check_category_body cfg mon page category_name category_id));
    reflexivity.
Qed.

Lemma check_category_monitored (cfg : Config) (mon : gset string) (page : Page)
    (category_name : string) (category_id : Z) :
  exists found,
    value (check_category cfg mon page category_name category_id) = Ret found /\
    Forall (fun x => x ∈ mon) found.
Proof.
  rewrite check_category_total. eexists. split; [reflexivity|].
  destruct (value (check_category_body cfg mon page category_name category_id))
    as [found|e] eqn:E; [|constructor].
  destruct (check_body_reaches_items _ _ _ _ _ _ E) as [items Hq].
  rewrite (check_body_value _ _ _ _ _ _ _ Hq E).
  apply Forall_forall. intros x Hx.
  apply list_elem_of_omap in Hx. destruct Hx as (location & _ & Hx).
  eapply available_name_monitored, Hx.
Qed.

Lemma check_category_trace (cfg : Config) (mon : gset string) (page : Page)
    (category_name : string) (category_id : Z) :
  exists t,
    trace (check_category cfg mon page category_name category_id)
    = connection cfg page ++ t /\
    forallb is_log t = true.
Proof.
  unfold check_category, connection. rewrite trace_try_catch.
  unfold check_category_body.
  destruct (start_driver page) as [[]|e];
    [rewrite bind_await_ret|rewrite bind_await_raise; eexists; split; reflexivity].
  rewrite trace_emit_bind, value_emit_bind.
  match goal with |- context [trace ?m] => assert (Hlogs : logs_only m) end.
  { repeat logs_step. apply check_locations_logs. }
  match type of Hlogs with logs_only ?m => destruct (value m) end.
  - eexists. split; [reflexivity|exact Hlogs].
  - eexists. split; [reflexivity|].
    rewrite forallb_app. unfold logs_only in Hlogs. rewrite Hlogs. reflexivity.
Qed.

(** ** The notifier *)

Lemma send_ha_webhook_value (cfg : Config) (now : string) (response : result Z)
    (cat : string) (info : PyDict.dict LocInfo) :
  value (send_ha_webhook cfg now response cat info) =
  Ret (match response with Ret 200 => true | _ => false end).
Proof.
  unfold send_ha_webhook. rewrite value_try_catch, value_emit_bind.
  destruct response as [status|[m|m]]; cbn; [|reflexivity..].
  destruct (Z.eqb_spec status 200) as [->|Hne]; cbn; [reflexivity|].
  repeat (case_match; try reflexivity). lia.
Qed.

Lemma send_ha_webhook_posts (cfg : Config) (now : string) (response : result Z)
    (cat : string) (info : PyDict.dict LocInfo) :
  posts (trace (send_ha_webhook cfg now response cat info)) =
  [make_payload now cat info].
Proof.
  unfold send_ha_webhook.
  destruct response as [status|[m|m]]; cbn; [|reflexivity..].
  destruct (status =? 200); reflexivity.
Qed.

Lemma locations_data_names (info : PyDict.dict LocInfo) (x : string) :
  In x (map name (locations_data info)) <-> In x (PyDict.keys info).
Proof.
  unfold locations_data, PyDict.keys.
  rewrite map_map.
  erewrite map_ext with (g := fst); [|intros [n i]; reflexivity].
  split; apply Permutation_in, Permutation_map;
    [|symmetry]; apply sorted_perm.
Qed.

(** ** The orchestrator *)

Lemma register_locations_spec (l : list Location) (mon : gset string)
    (info : PyDict.dict LocInfo) (x : string) :
  (x ∈ fst (register_locations l mon info) <-> x ∈ mon \/ In x (map name l)) /\
  (In x (PyDict.keys (snd (register_locations l mon info)))
   <-> In x (PyDict.keys info) \/ In x (map name l)).
Proof.
  revert mon info. induction l as [|loc l IH]; intros mon info; cbn.
  - tauto.
  - destruct (IH ({[name loc]} ∪ mon)
                (PyDict.set info (name loc) (mkLocInfo (address loc) (rank loc))))
      as [IH1 IH2].
    rewrite IH1, IH2, dict_set_keys, elem_of_union, elem_of_singleton.
    split; split; intros H; repeat destruct H as [H|H]; auto.
Qed.

Lemma monitored_state_known (l : list Location) (x : string) :
  x ∈ fst (monitored_state l) ->
  is_Some (PyDict.get (snd (monitored_state l)) x).
Proof.
  unfold monitored_state, MONITORED_LOCATIONS_init. intros Hx.
  apply dict_get_In.
  apply (register_locations_spec l ∅ [] x).
  apply (register_locations_spec l ∅ [] x) in Hx.
  destruct Hx as [Hx|Hx]; [|auto].
  exfalso. revert Hx. apply not_elem_of_empty.
Qed.

Lemma monitored_state_names (l : list Location) (x : string) :
  x ∈ fst (monitored_state l) <-> In x (map name l).
Proof.
  unfold monitored_state, MONITORED_LOCATIONS_init.
  rewrite (proj1 (register_locations_spec l ∅ [] x)).
  split; [intros [Hx|Hx]; [|assumption]|auto].
  exfalso. revert Hx. apply not_elem_of_empty.
Qed.

Lemma rank_keys_ok (info : PyDict.dict LocInfo) (l : list string) :
  Forall (fun x => is_Some (PyDict.get info x)) l ->
  exists keyed, rank_keys info l = (Ret keyed, []) /\ map snd keyed = l.
Proof.
  induction 1 as [|x l [i Hx] Hl (keyed & IH & Hk)]; cbn.
  - exists []. split; reflexivity.
  - unfold lookup_info. rewrite Hx, IH. cbn.
    eexists. split; [reflexivity|]. cbn. rewrite Hk. reflexivity.
Qed.

Lemma sorted_by_rank_ok (info : PyDict.dict LocInfo) (l : list string) :
  Forall (fun x => is_Some (PyDict.get info x)) l ->
  exists sorted_locations,
    sorted_by_rank info l = (Ret sorted_locations, []) /\
    Permutation sorted_locations l.
Proof.
  intros Hl. destruct (rank_keys_ok info l Hl) as (keyed & Hk & Hs).
  unfold sorted_by_rank. rewrite Hk. cbn.
  eexists. split; [reflexivity|].
  rewrite <- Hs. apply Permutation_map, sorted_perm.
Qed.

Lemma collect_info_ok (info : PyDict.dict LocInfo) (l : list string)
    (acc : PyDict.dict LocInfo) :
  Forall (fun x => is_Some (PyDict.get info x)) l ->
  exists d,
    collect_info info l acc = (Ret d, []) /\
    forall x, In x (PyDict.keys d) <-> In x (PyDict.keys acc) \/ In x l.
Proof.
  intros Hl. revert acc.
  induction Hl as [|y l [i Hy] Hl IH]; intros acc; cbn.
  - exists acc. split; [reflexivity|]. tauto.
  - unfold lookup_info. rewrite Hy. cbn.
    destruct (IH (PyDict.set acc y i)) as (d & Hd & Hkeys).
    rewrite Hd. cbn. exists d. split; [reflexivity|].
    intros x. rewrite Hkeys, dict_set_keys.
    split; intros H; repeat destruct H as [H|H]; auto.
Qed.

Lemma log_locations_ok (info : PyDict.dict LocInfo) (l : list string) :
  Forall (fun x => is_Some (PyDict.get info x)) l ->
  value (log_locations info l) = Ret tt /\ logs_only (log_locations info l).
Proof.
  induction 1 as [|y l [i Hy] Hl [IHv IHl]]; cbn.
  - split; reflexivity.
  - unfold lookup_info. rewrite Hy. cbn.
    destruct (log_locations info l) as [r t]. cbn in *. subst r.
    split; [reflexivity|exact IHl].
Qed.

Lemma gather_value {A} (tasks : list (M A)) :
  value (gather tasks) = Ret (map value tasks).
Proof.
  induction tasks as [|task rest IH]; [reflexivity|].
  cbn [gather map]. rewrite value_bind.
  change (value (capture task)) with (Ret (value task)).
  cbv iota beta. rewrite value_bind, IH. reflexivity.
Qed.

Lemma gather_trace {A} (tasks : list (M A)) :
  trace (gather tasks) = concat (map trace tasks).
Proof.
  induction tasks as [|task rest IH]; [reflexivity|].
  cbn [gather map concat]. rewrite trace_bind.
  change (value (capture task)) with (Ret (value task)).
  change (trace (capture task)) with (trace task).
  cbv iota beta. rewrite trace_bind, gather_value, IH.
  cbn. rewrite app_nil_r. reflexivity.
Qed.

Lemma bind_ret_nil {A B} (a : A) (f : A -> M B) : bind (Ret a, []) f = f a.
Proof. cbn. destruct (f a). reflexivity. Qed.

Lemma value_log_bind {B} lv msg (k : M B) : value (log lv msg ;;; k) = value k.
Proof. apply value_emit_bind. Qed.

Lemma trace_log_bind {B} lv msg (k : M B) :
  trace (log lv msg ;;; k) = EvLog lv msg :: trace k.
Proof. apply trace_emit_bind. Qed.

Lemma posts_log (lv : level) (msg : list chunk) (t : list event) :
  posts (EvLog lv msg :: t) = posts t.
Proof. reflexivity. Qed.

Lemma handle_result_spec (cfg : Config) (info : PyDict.dict LocInfo)
    (env : CycleEnv) (results : list (result (list string))) (i : nat)
    (category_name : string) (available : list string) :
  results !! i = Some (Ret available) ->
  Forall (known info) available ->
  value (handle_result cfg info env results i category_name) = Ret tt /\
  match available with
  | [] => posts (trace (handle_result cfg info env results i category_name)) = []
  | _ :: _ =>
      exists p,
        posts (trace (handle_result cfg info env results i category_name)) = [p] /\
        notifies p category_name available
  end.
Proof.
  intros Hi Hknown. unfold handle_result. rewrite Hi.
  destruct available as [|x rest]; [split; reflexivity|].
  destruct (sorted_by_rank_ok info (x :: rest) Hknown) as (sl & Hs & Hperm).
  assert (Hsl : Forall (known info) sl).
  { eapply Permutation_Forall; [symmetry; exact Hperm|exact Hknown]. }
  destruct (collect_info_ok info sl [] Hsl) as (d & Hd & Hkeys).
  destruct (log_locations_ok info sl Hsl) as [Hv Hl].
  rewrite !value_log_bind, !trace_log_bind, !posts_log.
  rewrite Hs, bind_ret_nil, Hd, bind_ret_nil.
  rewrite value_bind, trace_bind, Hv, posts_app, (posts_logs _ Hl).
  rewrite value_log_bind, trace_log_bind, posts_log.
  rewrite value_bind, trace_bind, send_ha_webhook_value, posts_app,
    send_ha_webhook_posts.
  split; [reflexivity|].
  eexists. split; [reflexivity|].
  assert (Hnames : forall y, In y (map name (locations_data d)) <-> In y (x :: rest)).
  { intros y. rewrite locations_data_names, Hkeys.
    split; [intros [Hf|Hy]; [destruct Hf|]; eapply Permutation_in; eauto
           |intros Hy; right; eapply Permutation_in; [symmetry|]; eauto]. }
  split; [reflexivity|]. split; [|exact Hnames].
  cbn [make_payload locations]. intros Hnil.
  assert (Hx : In x (map name (locations_data d))) by (apply Hnames; left; reflexivity).
  rewrite Hnil in Hx. exact Hx.
Qed.

Lemma handle_results_spec (cfg : Config) (info : PyDict.dict LocInfo)
    (env : CycleEnv) (results : list (result (list string)))
    (res : string -> Z -> list string) (cats : PyDict.dict Z) (i : nat) :
  (forall j c, cats !! j = Some c ->
     results !! (i + j)%nat = Some (Ret (res (fst c) (snd c)))) ->
  (forall c, In c cats -> Forall (known info) (res (fst c) (snd c))) ->
  value (handle_results cfg info env results i cats) = Ret tt /\
  Forall2 (fun p c => notifies p (fst c) (res (fst c) (snd c)))
    (posts (trace (handle_results cfg info env results i cats)))
    (with_availability res cats).
Proof.
  revert i. induction cats as [|[n id] cats IH]; intros i Hres Hknown.
  - split; [reflexivity|constructor].
  - cbn [handle_results].
    assert (Hi : results !! i = Some (Ret (res n id))).
    { specialize (Hres 0%nat (n, id) eq_refl). rewrite Nat.add_0_r in Hres.
      exact Hres. }
    destruct (handle_result_spec cfg info env results i n (res n id) Hi)
      as [Hv Hp].
    { apply (Hknown (n, id)). left. reflexivity. }
    destruct (IH (S i)) as [IHv IHp].
    { intros j c Hj. rewrite Nat.add_succ_l, <- Nat.add_succ_r.
      apply Hres. exact Hj. }
    { intros c Hc. apply Hknown. right. exact Hc. }
    rewrite value_bind, trace_bind, Hv, posts_app.
    split; [exact IHv|].
    unfold with_availability in *. cbn [List.filter fst snd].
    destruct (res n id) as [|x rest] eqn:E; cbn [nonempty].
    + rewrite Hp. exact IHp.
    + destruct Hp as (p & -> & Hp). cbn [app].
      constructor; [|exact IHp]. cbn [fst snd]. rewrite E. exact Hp.
Qed.

Lemma probe_result_value (cfg : Config) (mon : gset string) (env : CycleEnv)
    (n : string) (id : Z) :
  value (check_category cfg mon (probe_page env id) n id) =
  Ret (probe_result cfg mon env n id).
Proof.
  unfold probe_result. rewrite check_category_total. reflexivity.
Qed.

Lemma probe_result_monitored (cfg : Config) (mon : gset string) (env : CycleEnv)
    (n : string) (id : Z) :
  Forall (fun x => x ∈ mon) (probe_result cfg mon env n id).
Proof.
  destruct (check_category_monitored cfg mon (probe_page env id) n id)
    as (found & Hv & Hf).
  unfold probe_result. rewrite Hv. exact Hf.
Qed.

Lemma probes_posts (cfg : Config) (mon : gset string) (env : CycleEnv)
    (cats : PyDict.dict Z) :
  posts (concat (map trace
    (map (fun '(name, cat_id) =>
            check_category cfg mon (probe_page env cat_id) name cat_id) cats)))
  = [].
Proof.
  induction cats as [|[n id] cats IH]; [reflexivity|].
  cbn [map concat]. rewrite posts_app, IH, app_nil_r.
  destruct (check_category_trace cfg mon (probe_page env id) n id) as (t & -> & Ht).
  rewrite posts_app, (posts_logs _ Ht), app_nil_r.
  unfold connection. destruct (start_driver (probe_page env id)); reflexivity.
Qed.

Lemma probes_results (cfg : Config) (mon : gset string) (env : CycleEnv)
    (cats : PyDict.dict Z) (j : nat) (c : string * Z) :
  cats !! j = Some c ->
  map value
    (map (fun '(name, cat_id) =>
            check_category cfg mon (probe_page env cat_id) name cat_id) cats)
    !! j
  = Some (Ret (probe_result cfg mon env (fst c) (snd c))).
Proof.
  revert j. induction cats as [|[n id] cats IH]; intros [|j] Hj;
    try discriminate; cbn in *.
  - injection Hj as <-. cbn. rewrite <- probe_result_value. reflexivity.
  - apply IH, Hj.
Qed.

Lemma cycle_spec (cfg : Config) (locations_list : list Location) (env : CycleEnv) :
  let mon := fst (monitored_state locations_list) in
  let info := snd (monitored_state locations_list) in
  value (cycle cfg mon info env) = Ret tt /\
  Forall2 (fun p c => notifies p (fst c) (probe_result cfg mon env (fst c) (snd c)))
    (posts (trace (cycle cfg mon info env)))
    (with_availability (probe_result cfg mon env) CATEGORIES).
Proof.
  intros mon info. unfold cycle.
  destruct (handle_results_spec cfg info env
              (map value
                 (map (fun '(name, cat_id) =>
                         check_category cfg mon (probe_page env cat_id) name cat_id)
                    CATEGORIES))
              (probe_result cfg mon env) CATEGORIES 0) as [Hv Hp].
  { intros j c Hj. apply probes_results. exact Hj. }
  { intros c _. eapply Forall_impl; [apply probe_result_monitored|].
    intros x Hx. apply monitored_state_known. exact Hx. }
  rewrite value_bind, trace_bind, gather_value, gather_trace.
  rewrite value_bind, trace_bind, Hv.
  rewrite !posts_app, probes_posts.
  rewrite value_log_bind, trace_log_bind, posts_log.
  cbn [app]. split; [reflexivity|].
  cbn [emit trace snd posts omap]. rewrite app_nil_r. exact Hp.
Qed.

(** ** The claims *)

(** C2. Whatever the remote page answers, the probe returns a list, and
    every name in it belongs to the monitored set. *)
Theorem probe_within_monitored (cfg : Config) (mon : gset string) (page : Page)
    (category_name : string) (category_id : Z) :
  exists found,
    value (check_category cfg mon page category_name category_id) = Ret found /\
    forall x, In x found -> x ∈ mon.
Proof.
  destruct (check_category_monitored cfg mon page category_name category_id)
    as (found & Hv & Hf).
  exists found. split; [exact Hv|].
  intros x Hx. rewrite Forall_forall in Hf. apply Hf, list_elem_of_In, Hx.
Qed.

(** C4. For an enumerated entry whose stripped name is monitored and whose
    marker lookup (and visibility test, when a marker is found) answer, the
    probe loop adds the name exactly when no visible "no availability"
    marker is carried: an absent marker and a present but hidden one both
    count as available.  When it counts as available, the name is in the
    list the probe returns. *)
Theorem availability_default (cfg : Config) (mon : gset string) (page : Page)
    (category_name : string) (category_id : Z)
    (all_locations : list Element) (found : list string)
    (location : Element) (inner_div : InnerDiv) (name_div : TextNode)
    (s : string) :
  query_items page = Ret all_locations ->
  value (check_category_body cfg mon page category_name category_id) = Ret found ->
  In location (PyList.slice_to all_locations (MAX_LOCATIONS cfg)) ->
  q_div_title location = Ret (Some inner_div) ->
  q_first_child inner_div = Ret (Some name_div) ->
  text_content name_div = Ret (Some s) ->
  PyStr.strip s ∈ mon ->
  marker_answered inner_div = true ->
  value (check_location mon location)
  = Ret (if visible_marker inner_div then None else Some (PyStr.strip s)) /\
  (if visible_marker inner_div then True else In (PyStr.strip s) found).
Proof.
  intros Hq Hbody Hin Hd Hn Ht Hmon Hans.
  assert (Hentry : available_name mon location
                   = if visible_marker inner_div then None else Some (PyStr.strip s)).
  { unfold available_name, visible_marker, marker_answered in *.
    pose proof (bool_decide_eq_true_2 _ Hmon) as Hb.
    unfold check_location, stripped_text, value.
    rewrite Hd. cbn. rewrite Hn. cbn. rewrite Ht. cbn. rewrite Hb. cbn.
    destruct (q_no_availability inner_div) as [[m|]|e]; try discriminate; cbn;
      [|reflexivity].
    destruct (is_visible m) as [[|]|e]; try discriminate; reflexivity. }
  split.
  - rewrite check_location_value, Hentry. reflexivity.
  - destruct (visible_marker inner_div); [exact I|].
    rewrite (check_body_value _ _ _ _ _ _ _ Hq Hbody).
    apply list_elem_of_In, list_elem_of_omap.
    exists location. split; [apply list_elem_of_In, Hin|exact Hentry].
Qed.

Lemma availability_default_witness :
  value (check_location {["Durham"]} durham) = Ret (Some "Durham") /\
  In "Durham"
     (probe_result (example_cfg 25) {["Durham"]}
        (mkCycleEnv (fun _ => listing [cary; durham]) (fun _ => Ret 200) (fun _ => ""))
        "Permits" 9).
Proof.
  refine (availability_default (example_cfg 25) {["Durham"]} (listing [cary; durham])
            "Permits" 9 [cary; durham] _ durham
            (mkInnerDiv (text " Durham ") (text "101 S Miami Blvd") no_marker)
            (mkTextNode (Ret (Some " Durham "))) " Durham "
            _ _ _ _ _ _ _ _); try reflexivity.
  cbn. right. left. reflexivity.
Defined.

(** C5, as the specification states it, fails: with a maximum of one entry
    and a non-monitored entry listed first, the monitored and available
    entry behind it is never inspected. *)
Lemma probe_window_counterexample :
  value (check_category (example_cfg 1) {["Durham"]} (listing [cary; durham])
           "Permits" 9) = Ret [] /\
  omap (available_name {["Durham"]})
       (spec_window {["Durham"]} 1 [cary; durham]) = ["Durham"] /\
  ~ spec_probe_window (example_cfg 1) {["Durham"]} (listing [cary; durham])
      "Permits" 9.
Proof.
  split; [reflexivity|]. split; [reflexivity|].
  intros Hspec.
  specialize (Hspec [cary; durham] [] eq_refl eq_refl).
  discriminate Hspec.
Qed.

(** C5, amended. A probe that reaches the list view inspects the first
    max-location-count listed entries, monitored or not, and returns the
    names the loop adds for them, in order; with a non-negative maximum
    every returned name comes from an entry listed at a position below the
    maximum, so entries that are not monitored do take up places in the
    window. *)
Theorem probe_window (cfg : Config) (mon : gset string) (page : Page)
    (category_name : string) (category_id : Z)
    (all_locations : list Element) (found : list string) :
  query_items page = Ret all_locations ->
  value (check_category_body cfg mon page category_name category_id) = Ret found ->
  0 <= MAX_LOCATIONS cfg ->
  value (check_category cfg mon page category_name category_id) = Ret found /\
  found = omap (available_name mon)
            (PyList.slice_to all_locations (MAX_LOCATIONS cfg)) /\
  forall x, In x found ->
    exists (i : nat) (location : Element),
      Z.of_nat i < MAX_LOCATIONS cfg /\
      all_locations !! i = Some location /\
      available_name mon location = Some x.
Proof.
  intros Hq Hbody Hmax.
  pose proof (check_body_value _ _ _ _ _ _ _ Hq Hbody) as Hfound.
  split; [rewrite check_category_total, Hbody; reflexivity|].
  split; [exact Hfound|].
  intros x Hx. rewrite Hfound in Hx.
  apply list_elem_of_In, list_elem_of_omap in Hx.
  destruct Hx as (location & Hin & Hav).
  apply list_elem_of_lookup in Hin. destruct Hin as [i Hi].
  apply slice_to_lookup in Hi; [|exact Hmax]. destruct Hi as [Hlt Hi].
  exists i, location. auto.
Qed.

Lemma probe_window_witness :
  value (check_category (example_cfg 1) {["Durham"]} (listing [durham; cary])
           "Permits" 9) = Ret ["Durham"] /\
  forall x, In x ["Durham"] ->
    exists (i : nat) (location : Element),
      Z.of_nat i < 1 /\
      [durham; cary] !! i = Some location /\
      available_name {["Durham"]} location = Some x.
Proof.
  assert (Hbody : value (check_category_body (example_cfg 1) {["Durham"]}
                           (listing [durham; cary]) "Permits" 9)
                  = Ret ["Durham"]) by (vm_compute; reflexivity).
  assert (Hmax : 0 <= MAX_LOCATIONS (example_cfg 1)) by (cbn; lia).
  destruct (probe_window (example_cfg 1) {["Durham"]} (listing [durham; cary])
              "Permits" 9 [durham; cary] ["Durham"] eq_refl Hbody Hmax)
    as (Hv & _ & Hpos).
  split; [exact Hv|exact Hpos].
Defined.

(** C10. Discovery always returns a list, and every location in it has a
    name and an address that are stripped and not empty; so does every name
    of the monitored set built from that list.  An entry whose name text or
    address text strips to the empty string adds nothing, and no logger
    call is made for it. *)
Theorem discovered_locations_nonempty (cfg : Config) (page : Page) :
  exists locations_list,
    value (fetch_nearby_locations cfg page) = Ret locations_list /\
    Forall (fun loc =>
              name loc <> "" /\ address loc <> "" /\
              PyStr.strip (name loc) = name loc /\
              PyStr.strip (address loc) = address loc) locations_list /\
    (forall x, x ∈ monitored_set locations_list -> x <> "") /\
    (forall idx location inner_div name_div address_div n a,
       q_div_title location = Ret (Some inner_div) ->
       q_first_child inner_div = Ret (Some name_div) ->
       text_content name_div = Ret (Some n) ->
       q_form_control_child inner_div = Ret (Some address_div) ->
       text_content address_div = Ret (Some a) ->
       PyStr.strip n = "" \/ PyStr.strip a = "" ->
       parse_location idx location = (Ret None, [])).
Proof.
  assert (Hkept : forall window idx,
            Forall (fun loc =>
                      name loc <> "" /\ address loc <> "" /\
                      PyStr.strip (name loc) = name loc /\
                      PyStr.strip (address loc) = address loc)
                   (ranked idx window)).
  { induction window as [|location rest IH]; intros idx; cbn; [constructor|].
    destruct (entry_fields location) as [[n a]|] eqn:E; [|apply IH].
    constructor; [|apply IH]. exact (entry_fields_stripped _ _ _ E). }
  eexists. split; [apply fetch_total|].
  assert (Hall : Forall (fun loc =>
                      name loc <> "" /\ address loc <> "" /\
                      PyStr.strip (name loc) = name loc /\
                      PyStr.strip (address loc) = address loc)
                   match value (fetch_nearby_locations_body cfg page) with
                   | Ret locations_list => locations_list
                   | Raise _ => []
                   end).
  { destruct (value (fetch_nearby_locations_body cfg page)) as [l|e] eqn:E;
      [|constructor].
    destruct (fetch_body_reaches_items _ _ _ E) as [items Hq].
    rewrite (fetch_body_value _ _ _ _ Hq E). apply Hkept. }
  split; [exact Hall|]. split.
  - intros x Hx. apply monitored_state_names in Hx.
    apply in_map_iff in Hx. destruct Hx as (loc & <- & Hloc).
    rewrite Forall_forall in Hall.
    apply list_elem_of_In, Hall in Hloc. apply Hloc.
  - intros idx location inner_div name_div address_div n a Hd Hn Htn Ha Hta Hempty.
    unfold parse_location, stripped_text.
    rewrite Hd. cbn. rewrite Hn. cbn. rewrite Htn. cbn. rewrite Ha. cbn.
    rewrite Hta. cbn.
    destruct Hempty as [-> | ->]; cbn; [reflexivity|].
    rewrite andb_false_r. reflexivity.
Qed.

Lemma discovered_locations_nonempty_witness :
  value (fetch_nearby_locations (example_cfg 25)
           (listing [entry "   " "12 Oak St" no_marker; durham]))
  = Ret [mkLocation "Durham" "101 S Miami Blvd" 2] /\
  parse_location 1 (entry "   " "12 Oak St" no_marker) = (Ret None, []).
Proof.
  destruct (discovered_locations_nonempty (example_cfg 25)
              (listing [entry "   " "12 Oak St" no_marker; durham]))
    as (l & Hv & _ & _ & Hskip).
  split.
  - rewrite Hv. vm_compute in Hv. injection Hv as <-. reflexivity.
  - apply (Hskip 1 (entry "   " "12 Oak St" no_marker)
             (mkInnerDiv (text "   ") (text "12 Oak St") no_marker)
             (mkTextNode (Ret (Some "   "))) (mkTextNode (Ret (Some "12 Oak St")))
             "   " "12 Oak St"); try reflexivity.
    left. reflexivity.
Defined.

(** C6. The body posted by the notifier is the payload built from its
    argument: its [locations] are sorted by ascending rank and are the
    entries of the argument, [location_count] is their number, and
    [closest_location] is the name of the first one, or null when there is
    none. *)
Theorem payload_sorted_by_rank (cfg : Config) (now : string) (response : result Z)
    (cat : string) (locations_info : PyDict.dict LocInfo) :
  let payload := make_payload now cat locations_info in
  posts (trace (send_ha_webhook cfg now response cat locations_info)) = [payload] /\
  StronglySorted Z.le (map rank (locations payload)) /\
  Permutation (locations payload)
    (map (fun '(n, info) => mkLocation n (info_address info) (info_rank info))
         locations_info) /\
  location_count payload = Z.of_nat (length (locations payload)) /\
  closest_location payload
  = match locations payload with
    | first :: _ => Some (name first)
    | [] => None
    end.
Proof.
  intros payload. split; [apply send_ha_webhook_posts|].
  split; [|split; [|split; reflexivity]].
  - cbn [payload make_payload locations]. unfold locations_data.
    pose proof (sorted_sorted (fun x : string * LocInfo => info_rank (snd x))
                  locations_info) as Hsorted.
    induction Hsorted as [|[n i] l Hl IH Hhd]; cbn; constructor; [exact IH|].
    rewrite map_map. apply Forall_map. eapply Forall_impl; [exact Hhd|].
    intros [n' i'] Hle. exact Hle.
  - cbn [payload make_payload locations]. unfold locations_data.
    apply Permutation_map, sorted_perm.
Qed.

(** C9, as the specification states it, fails for the success status codes
    other than 200: on 204 the notifier logs a failure and returns false. *)
Lemma webhook_result_counterexample :
  spec_success_status 204 = true /\
  send_ha_webhook (example_cfg 25) "2026-01-05T08:00:00" (Ret 204) "Permits"
    [("Durham", mkLocInfo "101 S Miami Blvd" 2)]
  = (Ret false,
     [EvPost "http://homeassistant.local:8123/api/webhook/dmv_appointment_found"
        (make_payload "2026-01-05T08:00:00" "Permits"
           [("Durham", mkLocInfo "101 S Miami Blvd" 2)]);
      EvLog WARNING [Lit "Webhook failed: HTTP "; Int 204]]).
Proof. split; reflexivity. Qed.

(** C9, amended. Every call of the notifier returns a boolean and never
    raises: true exactly when the request completes with status code 200,
    false on every other status code, on a connection error and on any
    other exception, a timeout included. *)
Theorem webhook_result (cfg : Config) (now : string) (response : result Z)
    (cat : string) (locations_info : PyDict.dict LocInfo) :
  exists ok,
    value (send_ha_webhook cfg now response cat locations_info) = Ret ok /\
    (ok = true <-> response = Ret 200).
Proof.
  eexists. split; [apply send_ha_webhook_value|].
  destruct response as [status|e].
  - destruct (Z.eq_dec status 200) as [->|Hne]; [split; reflexivity|].
    split; [|congruence].
    repeat (case_match; try discriminate); lia.
  - split; [discriminate|discriminate].
Qed.

(** ** Cycles and the whole run *)

Lemma Forall2_In_r {A B} (R : A -> B -> Prop) (l1 : list A) (l2 : list B) (y : B) :
  Forall2 R l1 l2 -> In y l2 -> exists x, In x l1 /\ R x y.
Proof.
  induction 1 as [|x y' l1 l2 Hxy Hrest IH]; cbn; [tauto|].
  intros [<-|Hin]; [eauto|].
  destruct (IH Hin) as (x' & Hx' & HR). eauto.
Qed.

Lemma Forall2_In_l {A B} (R : A -> B -> Prop) (l1 : list A) (l2 : list B) (x : A) :
  Forall2 R l1 l2 -> In x l1 -> exists y, In y l2 /\ R x y.
Proof.
  induction 1 as [|x' y l1 l2 Hxy Hrest IH]; cbn; [tauto|].
  intros [<-|Hin]; [eauto|].
  destruct (IH Hin) as (y' & Hy' & HR). eauto.
Qed.

Lemma categories_unique (n : string) (id1 id2 : Z) :
  In (n, id1) CATEGORIES -> In (n, id2) CATEGORIES -> id1 = id2.
Proof.
  unfold CATEGORIES. cbn.
  intros [H1|[H1|[]]] [H2|[H2|[]]]; congruence.
Qed.

Lemma with_availability_In (res : string -> Z -> list string)
    (cats : PyDict.dict Z) (c : string * Z) :
  In c (with_availability res cats) <-> In c cats /\ res (fst c) (snd c) <> [].
Proof.
  unfold with_availability. rewrite filter_In.
  destruct (res (fst c) (snd c)); cbn; split; intros [? ?]; split; auto;
    congruence.
Qed.

Lemma monitor_loop_spec (cfg : Config) (locations_list : list Location)
    (cycles : list CycleEnv) :
  value (monitor_loop cfg (monitored_set locations_list)
           (location_info_of locations_list) cycles) = Ret tt /\
  posts (trace (monitor_loop cfg (monitored_set locations_list)
                  (location_info_of locations_list) cycles))
  = concat (map (fun env =>
                   posts (trace (cycle cfg (monitored_set locations_list)
                                   (location_info_of locations_list) env)))
                cycles).
Proof.
  induction cycles as [|env rest [IHv IHp]]; [split; reflexivity|].
  cbn [monitor_loop map concat].
  destruct (cycle_spec cfg locations_list env) as [Hv _].
  unfold monitored_set, location_info_of in *.
  rewrite value_bind, trace_bind, Hv, posts_app, IHp.
  split; [exact IHv|reflexivity].
Qed.

(** C7. In a cycle the notifier is called once for each category whose
    probe result is not empty, in the order of the categories, and for no
    other category; the list it posts is never empty.  The webhook requests
    of a run are those of its cycles, and neither a cycle nor the loop
    raises. *)
Theorem notifier_called_iff_available (cfg : Config)
    (locations_list : list Location) (cycles : list CycleEnv) (env : CycleEnv) :
  let mon := monitored_set locations_list in
  let info := location_info_of locations_list in
  value (cycle cfg mon info env) = Ret tt /\
  map category (posts (trace (cycle cfg mon info env)))
  = PyDict.keys (with_availability (probe_result cfg mon env) CATEGORIES) /\
  Forall (fun p => locations p <> []) (posts (trace (cycle cfg mon info env))) /\
  value (monitor_loop cfg mon info cycles) = Ret tt /\
  posts (trace (monitor_loop cfg mon info cycles))
  = concat (map (fun env => posts (trace (cycle cfg mon info env))) cycles).
Proof.
  intros mon info.
  destruct (cycle_spec cfg locations_list env) as [Hv Hp].
  destruct (monitor_loop_spec cfg locations_list cycles) as [Hlv Hlp].
  fold (monitored_set locations_list) in Hv, Hp. fold mon in Hv, Hp, Hlv, Hlp.
  fold (location_info_of locations_list) in Hv, Hp. fold info in Hv, Hp, Hlv, Hlp.
  split; [exact Hv|].
  split; [|split; [|split; [exact Hlv|exact Hlp]]].
  - induction Hp as [|p c ps cs [Hc _] _ IH]; [reflexivity|].
    cbn. rewrite Hc. f_equal. exact IH.
  - induction Hp as [|p c ps cs (_ & Hne & _) _ IH]; constructor; assumption.
Qed.

(** C1. When the body of a category's probe raises, the probe itself
    returns the empty list and ends with an error log of the failure; the
    cycle does not raise, posts nothing for that category, and every other
    category's probe still returns its result, which is notified when it is
    not empty. *)
Theorem probe_failure_isolated (cfg : Config) (locations_list : list Location)
    (env : CycleEnv) (n : string) (id : Z) (e : exn) :
  In (n, id) CATEGORIES ->
  value (check_category_body cfg (monitored_set locations_list)
           (probe_page env id) n id) = Raise e ->
  let mon := monitored_set locations_list in
  let info := location_info_of locations_list in
  value (check_category cfg mon (probe_page env id) n id) = Ret [] /\
  (exists t,
     trace (check_category cfg mon (probe_page env id) n id)
     = t ++ [EvLog ERROR [Str n; Lit " check failed: ";
                          Str (PyStr.prefix 100 (exn_str e))]]) /\
  value (cycle cfg mon info env) = Ret tt /\
  Forall (fun p => category p <> n) (posts (trace (cycle cfg mon info env))) /\
  forall n' id',
    In (n', id') CATEGORIES -> n' <> n ->
    value (check_category cfg mon (probe_page env id') n' id')
    = Ret (probe_result cfg mon env n' id') /\
    (probe_result cfg mon env n' id' <> [] ->
     exists p,
       In p (posts (trace (cycle cfg mon info env))) /\
       notifies p n' (probe_result cfg mon env n' id')).
Proof.
  intros Hcat Hbody mon info.
  destruct (cycle_spec cfg locations_list env) as [Hv Hp].
  fold (monitored_set locations_list) in Hv, Hp. fold mon in Hv, Hp, Hbody.
  fold (location_info_of locations_list) in Hv, Hp. fold info in Hv, Hp.
  assert (Hempty : probe_result cfg mon env n id = []).
  { unfold probe_result. rewrite check_category_total, Hbody. reflexivity. }
  split; [rewrite check_category_total, Hbody; reflexivity|].
  split.
  { unfold check_category. rewrite trace_try_catch, Hbody.
    eexists. reflexivity. }
  split; [exact Hv|]. split.
  - apply Forall_forall. intros p Hin Hn.
    apply list_elem_of_In in Hin.
    destruct (Forall2_In_l _ _ _ _ Hp Hin) as ([n' id'] & Hc & Hcat' & _).
    apply with_availability_In in Hc. destruct Hc as [Hc Hne].
    cbn [fst snd] in *. rewrite Hcat' in Hn. subst n'.
    rewrite (categories_unique _ _ _ Hc Hcat) in Hne.
    apply Hne, Hempty.
  - intros n' id' Hcat' Hneq.
    split; [apply probe_result_value|].
    intros Hne.
    assert (Hin : In (n', id') (with_availability (probe_result cfg mon env) CATEGORIES)).
    { apply with_availability_In. split; [exact Hcat'|exact Hne]. }
    destruct (Forall2_In_r _ _ _ _ Hp Hin) as (p & Hp1 & Hp2).
    exists p. split; [exact Hp1|exact Hp2].
Qed.

Lemma probe_failure_isolated_witness :
  value (check_category (example_cfg 25) (monitored_set durham_only) timed_out
           "Knowledge Test" 6) = Ret [] /\
  exists p,
    In p (posts (trace (cycle (example_cfg 25) (monitored_set durham_only)
                          (location_info_of durham_only) one_failing_cycle))) /\
    notifies p "Permits" ["Durham"].
Proof.
  destruct (probe_failure_isolated (example_cfg 25) durham_only one_failing_cycle
              "Knowledge Test" 6 (OtherException "Timeout 30000ms exceeded."))
    as (Hv & _ & _ & _ & Hsib).
  - left. reflexivity.
  - vm_compute. reflexivity.
  - split; [exact Hv|].
    destruct (Hsib "Permits" 9) as [_ Hnotified].
    + right. left. reflexivity.
    + discriminate.
    + assert (Hr : probe_result (example_cfg 25) (monitored_set durham_only)
                     one_failing_cycle "Permits" 9 = ["Durham"])
        by (vm_compute; reflexivity).
      rewrite Hr in Hnotified. apply Hnotified. discriminate.
Defined.

(** C8. When discovery returns the empty list, the run ends at once: its
    last event is the error log, it returns without raising, the observed
    cycles play no part in it, no webhook request is made, nothing sleeps,
    and every browser connection of the run is one discovery made. *)
Theorem empty_discovery_terminates (cfg : Config) (discovery : Page)
    (cycles : list CycleEnv) :
  value (fetch_nearby_locations cfg discovery) = Ret [] ->
  monitor_categories cfg discovery cycles = monitor_categories cfg discovery [] /\
  value (monitor_categories cfg discovery cycles) = Ret tt /\
  (exists t,
     trace (monitor_categories cfg discovery cycles)
     = t ++ [EvLog ERROR [Lit "No locations found. Exiting..."]]) /\
  posts (trace (monitor_categories cfg discovery cycles)) = [] /\
  List.filter is_sleep (trace (monitor_categories cfg discovery cycles)) = [] /\
  List.filter is_connect (trace (monitor_categories cfg discovery cycles))
  = List.filter is_connect (trace (fetch_nearby_locations cfg discovery)).
Proof.
  intros Hempty.
  destruct (fetch_trace cfg discovery) as (t & Ht & Hlogs).
  unfold monitor_categories.
  destruct (fetch_nearby_locations cfg discovery) as [r t0].
  cbn [value trace fst snd] in Hempty, Ht. subst r t0.
  cbn -[banner String.concat connection].
  split; [reflexivity|]. split; [reflexivity|].
  split.
  { eexists. rewrite !app_comm_cons. reflexivity. }
  change (omap _ ?l) with (posts l).
  rewrite !posts_app, (posts_logs _ Hlogs), !List.filter_app.
  rewrite (filter_logs is_sleep t) by (reflexivity || exact Hlogs).
  cbn [List.filter is_connect is_sleep app posts omap].
  rewrite !app_nil_r.
  unfold connection. destruct (start_driver discovery); repeat split.
Qed.

Lemma empty_discovery_terminates_witness :
  posts (trace (monitor_categories (example_cfg 25) timed_out [one_failing_cycle])) = [] /\
  List.filter is_connect
    (trace (monitor_categories (example_cfg 25) timed_out [one_failing_cycle]))
  = [EvConnect "ws://localhost:3000?token="].
Proof.
  destruct (empty_discovery_terminates (example_cfg 25) timed_out [one_failing_cycle])
    as (_ & _ & _ & Hposts & _ & Hconnect).
  - vm_compute. reflexivity.
  - split; [exact Hposts|].
    rewrite Hconnect. vm_compute. reflexivity.
Defined.

(** The webhook requests of a whole run: none when discovery finds
    nothing, otherwise those of the cycles, run with the monitored set and
    the dictionary built from the discovered list. *)
Lemma run_posts (cfg : Config) (discovery : Page) (cycles : list CycleEnv)
    (locations_list : list Location) :
  value (fetch_nearby_locations cfg discovery) = Ret locations_list ->
  value (monitor_categories cfg discovery cycles) = Ret tt /\
  posts (trace (monitor_categories cfg discovery cycles))
  = match locations_list with
    | [] => []
    | _ :: _ =>
        concat (map (fun env =>
                       posts (trace (cycle cfg (monitored_set locations_list)
                                       (location_info_of locations_list) env)))
                    cycles)
    end.
Proof.
  intros Hdisc.
  destruct (fetch_trace cfg discovery) as (t & Ht & Hlogs).
  destruct (monitor_loop_spec cfg locations_list cycles) as [Hlv Hlp].
  unfold monitor_categories.
  rewrite !value_log_bind, !trace_log_bind, !posts_log.
  rewrite value_bind, trace_bind, Hdisc, Ht, !posts_app.
  rewrite (posts_logs _ Hlogs).
  assert (Hc : posts (connection cfg discovery) = [])
    by (unfold connection; destruct (start_driver discovery); reflexivity).
  rewrite Hc.
  destruct locations_list as [|loc rest]; [split; reflexivity|].
  unfold monitored_set, location_info_of in *.
  destruct (monitored_state (loc :: rest)) as [mon info] eqn:E.
  unfold monitored_state in E. rewrite E.
  rewrite !value_log_bind, !trace_log_bind, !posts_log.
  cbn [fst snd app] in *. split; [exact Hlv|exact Hlp].
Qed.

(** ** Further properties of discovery and of the probe *)

(** X1. When the statements under the outer [try] of discovery raise,
    discovery returns the empty list and its last event is the error log
    that carries the exception's text. *)
Theorem discovery_failure_empty (cfg : Config) (page : Page) (e : exn) :
  value (fetch_nearby_locations_body cfg page) = Raise e ->
  value (fetch_nearby_locations cfg page) = Ret [] /\
  trace (fetch_nearby_locations cfg page)
  = trace (fetch_nearby_locations_body cfg page)
    ++ [EvLog ERROR [Lit "Error fetching locations: "; Str (exn_str e)]].
Proof.
  intros Hbody. unfold fetch_nearby_locations.
  rewrite value_try_catch, trace_try_catch, Hbody. split; reflexivity.
Qed.

Lemma discovery_failure_empty_witness :
  value (fetch_nearby_locations (example_cfg 25) timed_out) = Ret [] /\
  trace (fetch_nearby_locations (example_cfg 25) timed_out)
  = trace (fetch_nearby_locations_body (example_cfg 25) timed_out)
    ++ [EvLog ERROR [Lit "Error fetching locations: ";
                     Str "Timeout 30000ms exceeded."]].
Proof.
  apply (discovery_failure_empty (example_cfg 25) timed_out
           (OtherException "Timeout 30000ms exceeded.")).
  vm_compute. reflexivity.
Defined.

(** Rewrites with the recorded answers of the external calls. *)
Ltac use_answers :=
  cbn [value await fst] in *;
  repeat match goal with
         | H : ?x = _ |- context [?x] => rewrite H
         end;
  cbn [answers andb orb].

Lemma fetch_body_navigates (cfg : Config) (page : Page) (r : result (list Location)) :
  value (fetch_nearby_locations_body cfg page) = r ->
  discovery_navigates page = answers r.
Proof.
  intros <-. unfold fetch_nearby_locations_body, discovery_navigates.
  value_run; use_answers; try reflexivity.
  all: rewrite parse_locations_value in *; discriminate.
Qed.

Lemma check_body_navigates (cfg : Config) (mon : gset string) (page : Page)
    (category_name : string) (category_id : Z) (r : result (list string)) :
  value (check_category_body cfg mon page category_name category_id) = r ->
  probe_navigates page category_id = answers r.
Proof.
  intros <-. unfold check_category_body, probe_navigates.
  value_run; use_answers; try reflexivity.
  all: rewrite check_locations_value in *; discriminate.
Qed.

(** C3, as the specification states it, fails: an entry that is skipped
    still takes up its position, so with a broken entry listed first and a
    maximum of two the single location returned has rank 2. *)
Lemma discovery_ranks_counterexample :
  value (fetch_nearby_locations (example_cfg 2) (listing [broken_entry; durham; cary]))
  = Ret [mkLocation "Durham" "101 S Miami Blvd" 2] /\
  ~ spec_discovery_ranks (example_cfg 2) (listing [broken_entry; durham; cary]).
Proof.
  split; [reflexivity|].
  intros Hspec.
  destruct (Hspec [broken_entry; durham; cary]
              [mkLocation "Durham" "101 S Miami Blvd" 2] eq_refl eq_refl)
    as [Hlen Hranks].
  - apply Exists_cons_tl, Exists_cons_hd. eexists. reflexivity.
  - discriminate Hranks.
Qed.

Lemma ranked_count (idx : Z) (window : list Element) :
  length (ranked idx window)
  = length (List.filter
              (fun location =>
                 match entry_fields location with Some _ => true | None => false end)
              window).
Proof.
  revert idx. induction window as [|location rest IH]; intros idx; cbn;
    [reflexivity|].
  destruct (entry_fields location) as [[n a]|]; cbn; rewrite IH; reflexivity.
Qed.

Lemma ranked_In (idx : Z) (window : list Element) (i : nat) (location : Element)
    (n a : string) :
  window !! i = Some location ->
  entry_fields location = Some (n, a) ->
  In (mkLocation n a (idx + Z.of_nat i)) (ranked idx window).
Proof.
  revert idx i. induction window as [|x window IH]; intros idx [|i] Hi Hf;
    try discriminate; cbn in Hi |- *.
  - injection Hi as ->. rewrite Hf. left. f_equal. lia.
  - specialize (IH (idx + 1) i Hi Hf).
    replace (idx + Z.of_nat (S i)) with (idx + 1 + Z.of_nat i) by lia.
    destruct (entry_fields x) as [[n' a']|]; [right|]; exact IH.
Qed.

(** C3, amended. For every discovery with a non-negative maximum k, the
    window is the first min(k, listed) entries.  When every awaited call
    outside the per-entry handling answers, closing the browser included,
    the result is exactly the kept entries of the window in upstream order:
    every kept entry is returned, ranked by its 1-based position in the
    window, and nothing else is; so the length is the number of kept
    entries, at most min(k, listed), the ranks are strictly increasing, and
    when no entry of the window is skipped the length is min(k, listed) and
    the ranks are 1, 2, ..., length.  When one of those calls raises, the
    result is empty. *)
Theorem discovery_ranks (cfg : Config) (page : Page) :
  0 <= MAX_LOCATIONS cfg ->
  let window := PyList.slice_to (listed page) (MAX_LOCATIONS cfg) in
  let kept := ranked 1 window in
  value (fetch_nearby_locations cfg page)
  = Ret (if discovery_navigates page then kept else []) /\
  Z.of_nat (length window)
  = Z.min (MAX_LOCATIONS cfg) (Z.of_nat (length (listed page))) /\
  length kept
  = length (List.filter
              (fun location =>
                 match entry_fields location with Some _ => true | None => false end)
              window) /\
  (length kept <= length window)%nat /\
  StronglySorted Z.lt (map rank kept) /\
  (forall loc, In loc kept ->
     exists (i : nat) (location : Element),
       window !! i = Some location /\
       entry_fields location = Some (name loc, address loc) /\
       rank loc = 1 + Z.of_nat i) /\
  (forall (i : nat) (location : Element) (n a : string),
     window !! i = Some location ->
     entry_fields location = Some (n, a) ->
     In (mkLocation n a (1 + Z.of_nat i)) kept) /\
  (Forall (fun location => is_Some (entry_fields location)) window ->
   length kept = length window /\
   map rank kept = map Z.of_nat (seq 1 (length kept))).
Proof.
  intros Hmax window kept.
  split.
  { rewrite fetch_total.
    destruct (value (fetch_nearby_locations_body cfg page)) as [l|e] eqn:E;
      rewrite (fetch_body_navigates _ _ _ E); cbn [answers]; [|reflexivity].
    destruct (fetch_body_reaches_items _ _ _ E) as [items Hq].
    rewrite (fetch_body_value _ _ _ _ Hq E).
    unfold kept, window, listed. rewrite Hq. reflexivity. }
  split; [apply slice_to_length, Hmax|].
  split; [apply ranked_count|].
  split; [apply ranked_length|].
  split; [apply ranked_increasing|].
  split; [intros loc Hin; apply ranked_ranks, Hin|].
  split; [intros i location n a Hi Hf; apply (ranked_In _ _ _ location); assumption|].
  intros Hall.
  pose proof (ranked_all_kept 1 window Hall) as Hranks.
  assert (Hlen : length kept = length window).
  { apply (f_equal (@length Z)) in Hranks.
    rewrite !length_map, length_seq in Hranks. exact Hranks. }
  split; [exact Hlen|].
  unfold kept in *. rewrite Hranks, Hlen, <- seq_shift, map_map.
  apply map_ext. intros i. lia.
Qed.

Lemma discovery_ranks_witness :
  value (fetch_nearby_locations (example_cfg 2) (listing [durham; cary; raleigh]))
  = Ret [mkLocation "Durham" "101 S Miami Blvd" 1;
         mkLocation "Cary" "1387 SE Maynard Rd" 2] /\
  map rank [mkLocation "Durham" "101 S Miami Blvd" 1;
            mkLocation "Cary" "1387 SE Maynard Rd" 2]
  = map Z.of_nat (seq 1 2).
Proof.
  assert (Hmax : 0 <= MAX_LOCATIONS (example_cfg 2)) by (cbn; lia).
  destruct (discovery_ranks (example_cfg 2) (listing [durham; cary; raleigh]) Hmax)
    as (Hv & _ & _ & _ & _ & _ & _ & Hall).
  split; [rewrite Hv; vm_compute; reflexivity|].
  apply Hall. repeat constructor; eexists; reflexivity.
Defined.

(** X2. Discovery in closed form: it returns the kept entries of the first
    MAX_LOCATIONS listed entries, ranked by position, when every call
    outside the per-entry [try] answers, and the empty list otherwise; its
    body raises exactly in the second case.  A failure of the list-view
    lookup or click is among the fatal ones. *)
Theorem discovery_result (cfg : Config) (page : Page) :
  value (fetch_nearby_locations cfg page)
  = Ret (if discovery_navigates page
         then ranked 1 (PyList.slice_to (listed page) (MAX_LOCATIONS cfg))
         else []) /\
  (discovery_navigates page = false
   <-> exists e, value (fetch_nearby_locations_body cfg page) = Raise e).
Proof.
  rewrite fetch_total.
  destruct (value (fetch_nearby_locations_body cfg page)) as [l|e] eqn:E;
    rewrite (fetch_body_navigates _ _ _ E); cbn [answers].
  - split; [|split; [discriminate|intros [? ?]; discriminate]].
    destruct (fetch_body_reaches_items _ _ _ E) as [items Hq].
    unfold listed. rewrite Hq. f_equal. eapply fetch_body_value; eauto.
  - split; [reflexivity|]. split; eauto.
Qed.

(** X3. The probe in closed form: it returns the names the loop adds for
    the first MAX_LOCATIONS listed entries when every call outside the
    inner [try] blocks answers and one of the two load-state waits does,
    and the empty list otherwise; its body raises exactly in the second
    case.  Neither a missing or unclickable list-view button nor anything
    an entry answers makes the probe fail. *)
Theorem probe_result_closed_form (cfg : Config) (mon : gset string) (page : Page)
    (category_name : string) (category_id : Z) :
  value (check_category cfg mon page category_name category_id)
  = Ret (if probe_navigates page category_id
         then omap (available_name mon)
                (PyList.slice_to (listed page) (MAX_LOCATIONS cfg))
         else []) /\
  (probe_navigates page category_id = false
   <-> exists e,
         value (check_category_body cfg mon page category_name category_id)
         = Raise e).
Proof.
  rewrite check_category_total.
  destruct (value (check_category_body cfg mon page category_name category_id))
    as [l|e] eqn:E;
    rewrite (check_body_navigates _ _ _ _ _ _ E); cbn [answers].
  - split; [|split; [discriminate|intros [? ?]; discriminate]].
    destruct (check_body_reaches_items _ _ _ _ _ _ E) as [items Hq].
    unfold listed. rewrite Hq. f_equal. eapply check_body_value; eauto.
  - split; [reflexivity|]. split; eauto.
Qed.

(** X4. When [browser.close()] raises, the probe returns the empty list
    whatever availability its loop had found, and discovery returns the
    empty list whatever locations it had parsed. *)
Theorem close_failure_loses_results (cfg : Config) (mon : gset string) (page : Page)
    (category_name : string) (category_id : Z) (e : exn) :
  close page = Raise e ->
  value (check_category cfg mon page category_name category_id) = Ret [] /\
  value (fetch_nearby_locations cfg page) = Ret [].
Proof.
  intros Hclose. rewrite check_category_total, fetch_total. split.
  - destruct (value (check_category_body cfg mon page category_name category_id))
      as [l|e'] eqn:E; [|reflexivity].
    apply check_body_navigates in E. unfold probe_navigates in E.
    rewrite Hclose in E. cbn [answers] in E. rewrite andb_false_r in E.
    discriminate.
  - destruct (value (fetch_nearby_locations_body cfg page)) as [l|e'] eqn:E;
      [|reflexivity].
    apply fetch_body_navigates in E. unfold discovery_navigates in E.
    rewrite Hclose in E. cbn [answers] in E. rewrite andb_false_r in E.
    discriminate.
Qed.

Lemma close_failure_loses_results_witness :
  value (check_category (example_cfg 25) {["Durham"]} (close_fails [durham])
           "Permits" 9) = Ret [] /\
  value (fetch_nearby_locations (example_cfg 25) (close_fails [durham])) = Ret [].
Proof.
  apply (close_failure_loses_results (example_cfg 25) {["Durham"]}
           (close_fails [durham]) "Permits" 9
           (OtherException "Target page, context or browser has been closed")).
  reflexivity.
Defined.

(** X5. An entry whose stripped name is not monitored adds nothing and
    leaves no event: its marker is never looked up and no logger call is
    made, whatever the marker lookup would have answered. *)
Theorem unmonitored_entry_ignored (mon : gset string) (location : Element)
    (inner_div : InnerDiv) (name_div : TextNode) (s : string) :
  q_div_title location = Ret (Some inner_div) ->
  q_first_child inner_div = Ret (Some name_div) ->
  text_content name_div = Ret (Some s) ->
  PyStr.strip s ∉ mon ->
  check_location mon location = (Ret None, []).
Proof.
  intros Hd Hn Ht Hmon.
  unfold check_location, stripped_text.
  rewrite Hd. cbn. rewrite Hn. cbn. rewrite Ht. cbn.
  rewrite (bool_decide_eq_false_2 _ Hmon). reflexivity.
Qed.

Lemma unmonitored_entry_ignored_witness :
  check_location {["Durham"]} (entry "Cary" "1387 SE Maynard Rd" (marker false))
  = (Ret None, []).
Proof.
  apply (unmonitored_entry_ignored {["Durham"]}
           (entry "Cary" "1387 SE Maynard Rd" (marker false))
           (mkInnerDiv (text "Cary") (text "1387 SE Maynard Rd") (marker false))
           (mkTextNode (Ret (Some "Cary"))) "Cary"); try reflexivity.
  intros Hin. apply elem_of_singleton in Hin. discriminate Hin.
Defined.

(** X6. Every call of the notifier makes exactly one request, to the
    webhook URL and with the built payload, and then exactly one logger
    call: INFO exactly on status 200, WARNING exactly on another status,
    ERROR exactly when the request raises.  Nothing is retried. *)
Theorem webhook_one_request_one_log (cfg : Config) (now : string)
    (response : result Z) (cat : string) (locations_info : PyDict.dict LocInfo) :
  exists lv msg,
    trace (send_ha_webhook cfg now response cat locations_info)
    = [EvPost (webhook_url cfg) (make_payload now cat locations_info);
       EvLog lv msg] /\
    (lv = INFO <-> response = Ret 200) /\
    (lv = WARNING <-> exists status, response = Ret status /\ status <> 200) /\
    (lv = ERROR <-> exists e, response = Raise e).
Proof.
  unfold send_ha_webhook.
  destruct response as [status|[m|m]]; cbn.
  - destruct (Z.eqb_spec status 200) as [->|Hne]; cbn.
    + do 2 eexists. split; [reflexivity|].
      repeat split; try discriminate; auto.
      * intros (s & Hs & Hne). congruence.
      * intros [e He]. discriminate.
    + do 2 eexists. split; [reflexivity|].
      repeat split; try discriminate; eauto.
      * congruence.
      * intros [e He]. discriminate.
  - do 2 eexists. split; [reflexivity|].
    repeat split; try discriminate; eauto.
    intros (s & Hs & _). discriminate.
  - do 2 eexists. split; [reflexivity|].
    repeat split; try discriminate; eauto.
    intros (s & Hs & _). discriminate.
Qed.

(** X7. With MAX_LOCATIONS set to 0 discovery returns the empty list
    whatever the page lists, so the run returns without a single webhook
    request, however many cycles are observed. *)
Theorem zero_maximum_never_monitors (cfg : Config) (discovery : Page)
    (cycles : list CycleEnv) :
  MAX_LOCATIONS cfg = 0 ->
  value (fetch_nearby_locations cfg discovery) = Ret [] /\
  value (monitor_categories cfg discovery cycles) = Ret tt /\
  posts (trace (monitor_categories cfg discovery cycles)) = [].
Proof.
  intros Hmax.
  assert (Hdisc : value (fetch_nearby_locations cfg discovery) = Ret []).
  { rewrite fetch_total.
    destruct (value (fetch_nearby_locations_body cfg discovery)) as [l|e] eqn:E;
      [|reflexivity].
    destruct (fetch_body_reaches_items _ _ _ E) as [items Hq].
    rewrite (fetch_body_value _ _ _ _ Hq E), Hmax. reflexivity. }
  split; [exact Hdisc|].
  exact (run_posts cfg discovery cycles [] Hdisc).
Qed.

Lemma zero_maximum_never_monitors_witness :
  value (fetch_nearby_locations (example_cfg 0) (listing [durham; cary])) = Ret [] /\
  value (monitor_categories (example_cfg 0) (listing [durham; cary])
           [one_failing_cycle]) = Ret tt /\
  posts (trace (monitor_categories (example_cfg 0) (listing [durham; cary])
                  [one_failing_cycle])) = [].
Proof.
  apply (zero_maximum_never_monitors (example_cfg 0) (listing [durham; cary])
           [one_failing_cycle]).
  reflexivity.
Defined.

(** X8. When a payload names a closest location, that name is a key of
    the argument and belongs to an entry of the payload whose rank is at
    most the rank of every entry; it names none only for an empty
    argument. *)
Theorem closest_location_least_rank (now cat : string)
    (locations_info : PyDict.dict LocInfo) :
  match closest_location (make_payload now cat locations_info) with
  | Some n =>
      exists first,
        In first (locations (make_payload now cat locations_info)) /\
        name first = n /\
        PyDict.get locations_info n <> None /\
        forall loc, In loc (locations (make_payload now cat locations_info)) ->
                    rank first <= rank loc
  | None => locations_info = []
  end.
Proof.
  cbn [make_payload closest_location locations].
  pose proof (sorted_sorted (fun x : string * LocInfo => info_rank (snd x))
                locations_info) as Hsorted.
  pose proof (locations_data_names locations_info) as Hnames.
  unfold locations_data in *.
  destruct (PyList.sorted _ locations_info) as [|[n i] rest] eqn:E; cbn [map].
  - pose proof (sorted_perm (fun x : string * LocInfo => info_rank (snd x))
                  locations_info) as Hperm.
    rewrite E in Hperm. apply Permutation_nil in Hperm. exact Hperm.
  - eexists. split; [left; reflexivity|]. split; [reflexivity|].
    split.
    { cbn [name]. intros Hnone.
      assert (Hk : In n (PyDict.keys locations_info)).
      { apply Hnames. left. reflexivity. }
      apply dict_get_In in Hk. rewrite Hnone in Hk. destruct Hk as [? ?].
      discriminate. }
    intros loc [<-|Hin]; [cbn; lia|].
    apply StronglySorted_inv in Hsorted. destruct Hsorted as [_ Hhd].
    apply in_map_iff in Hin. destruct Hin as ([n' i'] & <- & Hin).
    rewrite Forall_forall in Hhd. apply list_elem_of_In, Hhd in Hin.
    exact Hin.
Qed.

Lemma dict_get_set {V} (d : PyDict.dict V) (k k' : string) (v : V) :
  PyDict.get (PyDict.set d k v) k'
  = if String.eqb k' k then Some v else PyDict.get d k'.
Proof.
  induction d as [|[k0 v0] d IH]; cbn.
  - reflexivity.
  - destruct (String.eqb_spec k k0) as [->|Hne]; cbn.
    + destruct (String.eqb_spec k' k0); reflexivity.
    + rewrite IH. destruct (String.eqb_spec k' k0) as [->|]; [|reflexivity].
      destruct (String.eqb_spec k0 k); [congruence|reflexivity].
Qed.

Lemma dict_set_In {V} (d : PyDict.dict V) (k : string) (v : V) (k' : string) (v' : V) :
  In (k', v') (PyDict.set d k v) -> (k', v') = (k, v) \/ In (k', v') d.
Proof.
  induction d as [|[k0 v0] d IH]; cbn.
  - intros [H|[]]. left. congruence.
  - destruct (String.eqb_spec k k0) as [->|Hne]; cbn.
    + intros [H|H]; [left; congruence|auto].
    + intros [H|H]; [auto|].
      destruct (IH H) as [?|?]; auto.
Qed.

Lemma dict_set_NoDup {V} (d : PyDict.dict V) (k : string) (v : V) :
  NoDup (PyDict.keys d) -> NoDup (PyDict.keys (PyDict.set d k v)).
Proof.
  induction d as [|[k0 v0] d IH]; cbn.
  - intros _. constructor; [|constructor]. intros Hin. inversion Hin.
  - intros Hnd. apply NoDup_cons in Hnd. destruct Hnd as [Hk0 Hnd].
    destruct (String.eqb_spec k k0) as [->|Hne]; cbn.
    + apply NoDup_cons. split; assumption.
    + apply NoDup_cons. split; [|apply IH, Hnd].
      intros Hin. apply list_elem_of_In, dict_set_keys in Hin.
      destruct Hin as [Heq|Hin]; [congruence|].
      apply Hk0, list_elem_of_In, Hin.
Qed.

Lemma last_named_In (l : list Location) (k : string) (loc : Location) :
  last_named l k = Some loc -> In loc l /\ name loc = k.
Proof.
  induction l as [|x l IH]; cbn; [discriminate|].
  destruct (last_named l k) as [later|].
  - intros H. injection H as ->. destruct (IH eq_refl). auto.
  - destruct (String.eqb_spec k (name x)) as [->|]; [|discriminate].
    intros H. injection H as ->. auto.
Qed.

Lemma register_locations_get (l : list Location) (mon : gset string)
    (info : PyDict.dict LocInfo) (k : string) :
  PyDict.get (snd (register_locations l mon info)) k
  = match last_named l k with
    | Some loc => Some (mkLocInfo (address loc) (rank loc))
    | None => PyDict.get info k
    end.
Proof.
  revert mon info. induction l as [|x l IH]; intros mon info; cbn; [reflexivity|].
  rewrite IH, dict_get_set.
  destruct (last_named l k); [reflexivity|].
  destruct (String.eqb k (name x)); reflexivity.
Qed.

Lemma register_locations_NoDup (l : list Location) (mon : gset string)
    (info : PyDict.dict LocInfo) :
  NoDup (PyDict.keys info) ->
  NoDup (PyDict.keys (snd (register_locations l mon info))).
Proof.
  revert mon info. induction l as [|x l IH]; intros mon info Hnd; cbn; [exact Hnd|].
  apply IH, dict_set_NoDup, Hnd.
Qed.

Lemma collect_info_joined (info : PyDict.dict LocInfo) (l : list string)
    (acc d : PyDict.dict LocInfo) :
  collect_info info l acc = (Ret d, []) -> joined info acc -> joined info d.
Proof.
  revert acc. induction l as [|y l IH]; intros acc; cbn.
  - intros H. injection H as ->. auto.
  - unfold lookup_info.
    destruct (PyDict.get info y) as [v|] eqn:Hy; [|discriminate].
    change (ret v) with (@pair (result LocInfo) (list event) (Ret v) []).
    rewrite bind_ret_nil. intros Hd [Hnd Hget].
    apply (IH _ Hd). split; [apply dict_set_NoDup, Hnd|].
    intros k' v' Hin. apply dict_set_In in Hin.
    destruct Hin as [Heq|Hin]; [injection Heq as -> ->; exact Hy|auto].
Qed.

Lemma handle_result_payload (cfg : Config) (info : PyDict.dict LocInfo)
    (env : CycleEnv) (results : list (result (list string))) (i : nat)
    (category_name : string) (available : list string) :
  results !! i = Some (Ret available) ->
  Forall (known info) available ->
  Forall (fun p => exists d,
            joined info d /\
            p = make_payload (clock env category_name) category_name d)
         (posts (trace (handle_result cfg info env results i category_name))).
Proof.
  intros Hi Hknown. unfold handle_result. rewrite Hi.
  destruct available as [|x rest]; [constructor|].
  destruct (sorted_by_rank_ok info (x :: rest) Hknown) as (sl & Hs & Hperm).
  assert (Hsl : Forall (known info) sl).
  { eapply Permutation_Forall; [symmetry; exact Hperm|exact Hknown]. }
  destruct (collect_info_ok info sl [] Hsl) as (d & Hd & _).
  destruct (log_locations_ok info sl Hsl) as [Hv Hl].
  rewrite !trace_log_bind, !posts_log.
  rewrite Hs, bind_ret_nil, Hd, bind_ret_nil.
  rewrite trace_bind, Hv, posts_app, (posts_logs _ Hl).
  rewrite trace_log_bind, posts_log.
  rewrite trace_bind, send_ha_webhook_value, posts_app, send_ha_webhook_posts.
  cbn. constructor; [|constructor].
  exists d. split; [|reflexivity].
  apply (collect_info_joined _ _ _ _ Hd).
  split; [constructor|]. intros k v [].
Qed.

Lemma handle_results_payload (cfg : Config) (info : PyDict.dict LocInfo)
    (env : CycleEnv) (results : list (result (list string)))
    (res : string -> Z -> list string) (cats : PyDict.dict Z) (i : nat) :
  (forall j c, cats !! j = Some c ->
     results !! (i + j)%nat = Some (Ret (res (fst c) (snd c)))) ->
  (forall c, In c cats -> Forall (known info) (res (fst c) (snd c))) ->
  Forall (fun p => exists d c,
            In c cats /\ joined info d /\
            p = make_payload (clock env (fst c)) (fst c) d)
         (posts (trace (handle_results cfg info env results i cats))).
Proof.
  revert i. induction cats as [|[n id] cats IH]; intros i Hres Hknown.
  - constructor.
  - cbn [handle_results].
    assert (Hi : results !! i = Some (Ret (res n id))).
    { specialize (Hres 0%nat (n, id) eq_refl). rewrite Nat.add_0_r in Hres.
      exact Hres. }
    destruct (handle_result_spec cfg info env results i n (res n id) Hi)
      as [Hv _].
    { apply (Hknown (n, id)). left. reflexivity. }
    rewrite trace_bind, Hv, posts_app. apply Forall_app. split.
    + eapply Forall_impl.
      * apply (handle_result_payload cfg info env results i n (res n id) Hi).
        apply (Hknown (n, id)). left. reflexivity.
      * intros p (d & Hj & Hp). exists d, (n, id). split; [left; reflexivity|auto].
    + eapply Forall_impl.
      * apply (IH (S i)).
        { intros j c Hj. rewrite Nat.add_succ_l, <- Nat.add_succ_r.
          apply Hres. exact Hj. }
        { intros c Hc. apply Hknown. right. exact Hc. }
      * intros p (d & c & Hc & Hj & Hp). exists d, c. split; [right; exact Hc|auto].
Qed.

Lemma cycle_payload (cfg : Config) (locations_list : list Location) (env : CycleEnv) :
  Forall (fun p => exists d c,
            In c CATEGORIES /\
            joined (location_info_of locations_list) d /\
            p = make_payload (clock env (fst c)) (fst c) d)
         (posts (trace (cycle cfg (monitored_set locations_list)
                          (location_info_of locations_list) env))).
Proof.
  set (mon := monitored_set locations_list).
  set (info := location_info_of locations_list).
  assert (Hres : forall j c, CATEGORIES !! j = Some c ->
            map value
              (map (fun '(name, cat_id) =>
                      check_category cfg mon (probe_page env cat_id) name cat_id)
                 CATEGORIES) !! (0 + j)%nat
            = Some (Ret (probe_result cfg mon env (fst c) (snd c)))).
  { intros j c Hj. apply probes_results. exact Hj. }
  assert (Hknown : forall c, In c CATEGORIES ->
            Forall (known info) (probe_result cfg mon env (fst c) (snd c))).
  { intros c _. eapply Forall_impl; [apply probe_result_monitored|].
    intros x Hx. apply monitored_state_known. exact Hx. }
  destruct (handle_results_spec cfg info env _ _ CATEGORIES 0 Hres Hknown) as [Hv _].
  pose proof (handle_results_payload cfg info env _ _ CATEGORIES 0 Hres Hknown) as Hp.
  unfold cycle.
  rewrite trace_bind, gather_value, gather_trace.
  rewrite trace_bind, Hv.
  rewrite !posts_app, probes_posts.
  rewrite trace_log_bind, posts_log.
  cbn [app emit trace snd posts omap]. rewrite app_nil_r. exact Hp.
Qed.

Lemma joined_payload (locations_list : list Location) (now cat : string)
    (d : PyDict.dict LocInfo) :
  joined (location_info_of locations_list) d ->
  payload_from locations_list now (make_payload now cat d).
Proof.
  intros [Hnd Hget]. unfold payload_from.
  split; [reflexivity|]. split; [reflexivity|]. split; [reflexivity|].
  cbn [make_payload locations]. unfold locations_data.
  pose proof (sorted_perm (fun x : string * LocInfo => info_rank (snd x)) d) as Hperm.
  split.
  - rewrite map_map.
    erewrite map_ext with (g := fst); [|intros [n i]; reflexivity].
    rewrite (Permutation_map fst Hperm). exact Hnd.
  - apply Forall_forall. intros loc Hin.
    apply list_elem_of_In, in_map_iff in Hin. destruct Hin as ([k v] & <- & Hin).
    apply (Permutation_in _ Hperm), Hget in Hin.
    unfold location_info_of, monitored_state in Hin.
    rewrite register_locations_get in Hin. cbn [name].
    destruct (last_named locations_list k) as [loc|] eqn:E; [|discriminate].
    injection Hin as <-.
    destruct (last_named_In _ _ _ E) as [_ <-].
    destruct loc; reflexivity.
Qed.

Lemma last_named_app (l1 l2 : list Location) (loc : Location) :
  Forall (fun later => name later <> name loc) l2 ->
  last_named (l1 ++ loc :: l2) (name loc) = Some loc.
Proof.
  intros Hl2.
  assert (H2 : last_named l2 (name loc) = None).
  { induction Hl2 as [|x l2 Hx Hl2 IH]; cbn; [reflexivity|].
    rewrite IH. destruct (String.eqb_spec (name loc) (name x)); [congruence|reflexivity]. }
  induction l1 as [|x l1 IH]; cbn.
  - rewrite H2, String.eqb_refl. reflexivity.
  - rewrite IH. reflexivity.
Qed.

(** X9. After start-up the monitored set, the keys of [location_info] and
    the discovered names are the same names, each key occurs once, and a
    name is monitored exactly when [location_info] has an entry for it. *)
Theorem monitored_set_is_directory (locations_list : list Location) (x : string) :
  NoDup (PyDict.keys (location_info_of locations_list)) /\
  (x ∈ monitored_set locations_list
   <-> In x (PyDict.keys (location_info_of locations_list))) /\
  (x ∈ monitored_set locations_list <-> In x (map name locations_list)) /\
  (x ∈ monitored_set locations_list
   <-> exists info, PyDict.get (location_info_of locations_list) x = Some info).
Proof.
  unfold monitored_set, location_info_of.
  split; [apply register_locations_NoDup; constructor|].
  assert (Hkeys : In x (PyDict.keys (snd (monitored_state locations_list)))
                  <-> In x (map name locations_list)).
  { unfold monitored_state.
    rewrite (proj2 (register_locations_spec locations_list
                      MONITORED_LOCATIONS_init [] x)).
    cbn. tauto. }
  split; [rewrite Hkeys; apply monitored_state_names|].
  split; [apply monitored_state_names|].
  rewrite monitored_state_names, <- Hkeys, <- dict_get_In. reflexivity.
Qed.

(** X10. When two discovered locations bear the same name, the later one
    wins: [location_info] holds, for a name, the address and rank of the
    last discovered location of that name. *)
Theorem directory_last_wins (l1 l2 : list Location) (loc : Location) :
  Forall (fun later => name later <> name loc) l2 ->
  PyDict.get (location_info_of (l1 ++ loc :: l2)) (name loc)
  = Some (mkLocInfo (address loc) (rank loc)).
Proof.
  intros Hl2. unfold location_info_of, monitored_state.
  rewrite register_locations_get, (last_named_app _ _ _ Hl2). reflexivity.
Qed.

Lemma directory_last_wins_witness :
  PyDict.get (location_info_of
                [mkLocation "Durham" "101 S Miami Blvd" 1;
                 mkLocation "Cary" "1387 SE Maynard Rd" 2;
                 mkLocation "Durham" "3825 S Roxboro St" 3]) "Durham"
  = Some (mkLocInfo "3825 S Roxboro St" 3).
Proof.
  apply (directory_last_wins
           [mkLocation "Durham" "101 S Miami Blvd" 1;
            mkLocation "Cary" "1387 SE Maynard Rd" 2]
           [] (mkLocation "Durham" "3825 S Roxboro St" 3)).
  constructor.
Defined.

(** X11. Every payload posted in a cycle carries the timestamp read in its
    own notifier call, the one made for its category, and the fixed booking
    URL, counts its entries, lists each name once
    (a name the probe returned twice is reported once), and each entry is
    the last discovered location of its name, with that location's address
    and rank. *)
Theorem posted_locations_from_discovery (cfg : Config)
    (locations_list : list Location) (env : CycleEnv) :
  Forall (fun p => payload_from locations_list (clock env (category p)) p)
         (posts (trace (cycle cfg (monitored_set locations_list)
                          (location_info_of locations_list) env))).
Proof.
  eapply Forall_impl; [apply cycle_payload|].
  intros p (d & c & _ & Hj & ->). cbn [make_payload category].
  apply joined_payload, Hj.
Qed.

Lemma sessionless_bind {A B} (m : M A) (f : A -> M B) :
  sessionless m -> (forall a, sessionless (f a)) -> sessionless (bind m f).
Proof.
  unfold sessionless. intros Hm Hf. rewrite trace_bind.
  destruct (value m); [|assumption].
  rewrite List.filter_app, Hm. apply Hf.
Qed.

Lemma sessionless_logs {A} (m : M A) : logs_only m -> sessionless m.
Proof. intros Hm. apply filter_logs; [reflexivity|exact Hm]. Qed.

Lemma sessionless_lookup_info (info : PyDict.dict LocInfo) (x : string) :
  sessionless (lookup_info info x).
Proof. unfold lookup_info. destruct (PyDict.get info x); reflexivity. Qed.

Lemma sessionless_rank_keys (info : PyDict.dict LocInfo) (l : list string) :
  sessionless (rank_keys info l).
Proof.
  induction l as [|x l IH]; [reflexivity|]. cbn [rank_keys].
  apply sessionless_bind; [apply sessionless_lookup_info|intros i].
  apply sessionless_bind; [exact IH|reflexivity].
Qed.

Lemma sessionless_collect_info (info : PyDict.dict LocInfo) (l : list string)
    (acc : PyDict.dict LocInfo) :
  sessionless (collect_info info l acc).
Proof.
  revert acc. induction l as [|x l IH]; intros acc; [reflexivity|].
  cbn [collect_info].
  apply sessionless_bind; [apply sessionless_lookup_info|intros i; apply IH].
Qed.

Lemma sessionless_log_locations (info : PyDict.dict LocInfo) (l : list string) :
  sessionless (log_locations info l).
Proof.
  induction l as [|x l IH]; [reflexivity|]. cbn [log_locations].
  apply sessionless_bind; [apply sessionless_lookup_info|intros i].
  apply sessionless_bind; [reflexivity|intros _].
  apply sessionless_bind; [reflexivity|intros _; exact IH].
Qed.

Lemma sessionless_send (cfg : Config) (now : string) (response : result Z)
    (cat : string) (info : PyDict.dict LocInfo) :
  sessionless (send_ha_webhook cfg now response cat info).
Proof.
  unfold sessionless, send_ha_webhook.
  destruct response as [status|[m|m]]; cbn; [|reflexivity..].
  destruct (status =? 200); reflexivity.
Qed.

Lemma sessionless_handle_result (cfg : Config) (info : PyDict.dict LocInfo)
    (env : CycleEnv) (results : list (result (list string))) (i : nat)
    (category_name : string) :
  sessionless (handle_result cfg info env results i category_name).
Proof.
  unfold handle_result.
  destruct (results !! i) as [[[|x rest]|e]|]; try reflexivity.
  repeat (apply sessionless_bind; [reflexivity|intros _]).
  apply sessionless_bind; [|intros sl].
  { unfold sorted_by_rank.
    apply sessionless_bind; [apply sessionless_rank_keys|reflexivity]. }
  apply sessionless_bind; [apply sessionless_collect_info|intros d].
  apply sessionless_bind; [apply sessionless_log_locations|intros _].
  apply sessionless_bind; [reflexivity|intros _].
  apply sessionless_bind; [apply sessionless_send|reflexivity].
Qed.

Lemma sessionless_handle_results (cfg : Config) (info : PyDict.dict LocInfo)
    (env : CycleEnv) (results : list (result (list string))) (i : nat)
    (cats : PyDict.dict Z) :
  sessionless (handle_results cfg info env results i cats).
Proof.
  revert i. induction cats as [|[n id] cats IH]; intros i; [reflexivity|].
  cbn [handle_results].
  apply sessionless_bind; [apply sessionless_handle_result|intros _; apply IH].
Qed.

Lemma connection_sessions (cfg : Config) (page : Page) :
  List.filter is_session (connection cfg page) = connection cfg page.
Proof. unfold connection. destruct (start_driver page); reflexivity. Qed.

Lemma probes_sessions (cfg : Config) (mon : gset string) (env : CycleEnv)
    (cats : PyDict.dict Z) :
  List.filter is_session
    (concat (map trace
       (map (fun '(name, cat_id) =>
               check_category cfg mon (probe_page env cat_id) name cat_id) cats)))
  = concat (map (fun c => connection cfg (probe_page env (snd c))) cats).
Proof.
  induction cats as [|[n id] cats IH]; [reflexivity|].
  cbn [map concat snd]. rewrite List.filter_app, IH.
  destruct (check_category_trace cfg mon (probe_page env id) n id) as (t & -> & Ht).
  rewrite List.filter_app, connection_sessions.
  rewrite (filter_logs is_session t); [|reflexivity|exact Ht].
  rewrite app_nil_r. reflexivity.
Qed.

(** X12. In a cycle each probe makes, in the order of the categories, one
    browser connection when its driver starts and none when it does not;
    after them the cycle sleeps exactly once, for CHECK_INTERVAL seconds,
    as its last action; the loop repeats this pattern once per cycle. *)
Theorem cycle_sessions_then_sleep (cfg : Config) (locations_list : list Location)
    (env : CycleEnv) (cycles : list CycleEnv) :
  let mon := monitored_set locations_list in
  let info := location_info_of locations_list in
  List.filter is_session (trace (cycle cfg mon info env))
  = concat (map (fun c => connection cfg (probe_page env (snd c))) CATEGORIES)
    ++ [EvSleep (CHECK_INTERVAL cfg)] /\
  (exists t, trace (cycle cfg mon info env) = t ++ [EvSleep (CHECK_INTERVAL cfg)]) /\
  List.filter is_session (trace (monitor_loop cfg mon info cycles))
  = concat (map (fun env' =>
                   concat (map (fun c => connection cfg (probe_page env' (snd c)))
                             CATEGORIES)
                   ++ [EvSleep (CHECK_INTERVAL cfg)]) cycles).
Proof.
  intros mon info.
  assert (Hcycle : forall env',
            List.filter is_session (trace (cycle cfg mon info env'))
            = concat (map (fun c => connection cfg (probe_page env' (snd c)))
                        CATEGORIES)
              ++ [EvSleep (CHECK_INTERVAL cfg)] /\
            exists t, trace (cycle cfg mon info env')
                      = t ++ [EvSleep (CHECK_INTERVAL cfg)]).
  { intros env'.
    destruct (cycle_spec cfg locations_list env') as [Hv _].
    fold (monitored_set locations_list) in Hv. fold mon in Hv.
    fold (location_info_of locations_list) in Hv. fold info in Hv.
    revert Hv. unfold cycle.
    rewrite value_bind, !trace_bind, gather_value, gather_trace.
    rewrite value_bind, trace_bind.
    destruct (value (handle_results cfg info env' _ 0 CATEGORIES)) eqn:Hh;
      [|discriminate].
    intros _. rewrite trace_log_bind. cbn [emit trace snd].
    split.
    - rewrite !List.filter_app, probes_sessions.
      rewrite (sessionless_handle_results cfg info env' _ 0 CATEGORIES).
      reflexivity.
    - eexists. rewrite app_assoc.
      change (?a :: [?b]) with ([a] ++ [b]). rewrite app_assoc. reflexivity. }
  split; [apply Hcycle|]. split; [apply Hcycle|].
  induction cycles as [|env' rest IH]; [reflexivity|].
  cbn [monitor_loop map concat].
  destruct (cycle_spec cfg locations_list env') as [Hv _].
  fold (monitored_set locations_list) in Hv. fold mon in Hv.
  fold (location_info_of locations_list) in Hv. fold info in Hv.
  rewrite trace_bind, Hv, List.filter_app, IH, (proj1 (Hcycle env')).
  reflexivity.
Qed.

Lemma entry_fields_name (location : Element) (n a : string) :
  entry_fields location = Some (n, a) ->
  exists inner_div name_div s,
    q_div_title location = Ret (Some inner_div) /\
    q_first_child inner_div = Ret (Some name_div) /\
    text_content name_div = Ret (Some s) /\
    PyStr.strip s = n.
Proof.
  unfold entry_fields. run_entry; intros; simplify_eq/=.
  eauto 10.
Qed.

Lemma available_name_open (mon : gset string) (location : Element) (n a : string) :
  entry_fields location = Some (n, a) ->
  open_entry location = true ->
  n ∈ mon ->
  available_name mon location = Some n.
Proof.
  intros Hf Ho Hmon.
  destruct (entry_fields_name _ _ _ Hf) as (d & nd & s & Hd & Hn & Ht & <-).
  pose proof (bool_decide_eq_true_2 _ Hmon) as Hb.
  unfold open_entry in Ho. rewrite Hd in Ho.
  apply andb_true_iff in Ho. destruct Ho as [Hans Hvis].
  apply negb_true_iff in Hvis.
  unfold available_name, check_location, stripped_text, value,
    marker_answered, visible_marker in *.
  rewrite Hd. cbn. rewrite Hn. cbn. rewrite Ht. cbn. rewrite Hb. cbn.
  destruct (q_no_availability d) as [[m|]|e]; try discriminate; cbn;
    [|reflexivity].
  destruct (is_visible m) as [[|]|e]; try discriminate; reflexivity.
Qed.

(** X13. Discovery followed by a probe that lists the same entries: every
    name the probe returns was discovered, and every entry of the window
    that discovery kept and that shows no visible marker (its marker lookup
    answering) is both a discovered location, ranked by its position, and a
    name the probe returns. *)
Theorem discovery_then_probe (cfg : Config) (discovery page : Page)
    (category_name : string) (category_id : Z)
    (all_locations : list Element) (locations_list : list Location)
    (found : list string) :
  query_items discovery = Ret all_locations ->
  query_items page = Ret all_locations ->
  value (fetch_nearby_locations_body cfg discovery) = Ret locations_list ->
  value (check_category_body cfg (monitored_set locations_list) page
           category_name category_id) = Ret found ->
  (forall x, In x found -> In x (map name locations_list)) /\
  forall (i : nat) (location : Element) (n a : string),
    PyList.slice_to all_locations (MAX_LOCATIONS cfg) !! i = Some location ->
    entry_fields location = Some (n, a) ->
    open_entry location = true ->
    In (mkLocation n a (1 + Z.of_nat i)) locations_list /\ In n found.
Proof.
  intros Hqd Hqp Hdisc Hprobe.
  pose proof (fetch_body_value _ _ _ _ Hqd Hdisc) as Hl.
  pose proof (check_body_value _ _ _ _ _ _ _ Hqp Hprobe) as Hfound.
  split.
  - intros x Hx. rewrite Hfound in Hx.
    apply list_elem_of_In, list_elem_of_omap in Hx.
    destruct Hx as (location & _ & Hav).
    apply available_name_monitored in Hav.
    apply monitored_state_names, Hav.
  - intros i location n a Hi Hf Ho.
    assert (Hin : In (mkLocation n a (1 + Z.of_nat i)) locations_list).
    { rewrite Hl. apply (ranked_In _ _ _ location); assumption. }
    split; [exact Hin|].
    rewrite Hfound. apply list_elem_of_In, list_elem_of_omap.
    exists location. split; [apply list_elem_of_lookup; eauto|].
    apply (available_name_open _ _ n a Hf Ho).
    apply monitored_state_names, in_map_iff.
    eexists. split; [|exact Hin]. reflexivity.
Qed.

Lemma discovery_then_probe_witness :
  In (mkLocation "Durham" "101 S Miami Blvd" 1)
     [mkLocation "Durham" "101 S Miami Blvd" 1;
      mkLocation "Raleigh East" "4121 New Bern Ave" 2] /\
  In "Durham" ["Durham"].
Proof.
  assert (Hd : value (fetch_nearby_locations_body (example_cfg 2)
                        (listing [durham; raleigh; cary]))
               = Ret [mkLocation "Durham" "101 S Miami Blvd" 1;
                      mkLocation "Raleigh East" "4121 New Bern Ave" 2])
    by (vm_compute; reflexivity).
  assert (Hp : value (check_category_body (example_cfg 2)
                        (monitored_set
                           [mkLocation "Durham" "101 S Miami Blvd" 1;
                            mkLocation "Raleigh East" "4121 New Bern Ave" 2])
                        (listing [durham; raleigh; cary]) "Permits" 9)
               = Ret ["Durham"])
    by (vm_compute; reflexivity).
  destruct (discovery_then_probe (example_cfg 2) (listing [durham; raleigh; cary])
              (listing [durham; raleigh; cary]) "Permits" 9
              [durham; raleigh; cary] _ _ eq_refl eq_refl Hd Hp) as [_ Hopen].
  apply (Hopen 0%nat durham "Durham" "101 S Miami Blvd"); reflexivity.
Defined.

(** X14. A whole run never raises: discovery always returns a list; when it
    is empty no webhook request is made, and otherwise the requests of the
    run are those of its cycles, made with the monitored set and the
    dictionary built from the discovered list. *)
Theorem run_never_raises (cfg : Config) (discovery : Page) (cycles : list CycleEnv) :
  exists locations_list,
    value (fetch_nearby_locations cfg discovery) = Ret locations_list /\
    value (monitor_categories cfg discovery cycles) = Ret tt /\
    posts (trace (monitor_categories cfg discovery cycles))
    = match locations_list with
      | [] => []
      | _ :: _ =>
          concat (map (fun env =>
                         posts (trace (cycle cfg (monitored_set locations_list)
                                         (location_info_of locations_list) env)))
                      cycles)
      end.
Proof.
  eexists. split; [apply fetch_total|].
  apply run_posts, fetch_total.
Qed.

(** X15. Discovery and every probe make at most one browser connection:
    exactly one, as their first action, when the driver starts, whatever
    fails afterwards, and none when the driver fails to start; everything
    else they do is logger calls: neither posts to the webhook nor sleeps. *)
Theorem one_session_per_call (cfg : Config) (mon : gset string) (page : Page)
    (category_name : string) (category_id : Z) :
  (exists t,
     trace (check_category cfg mon page category_name category_id)
     = match start_driver page with
       | Ret _ => EvConnect (ws_endpoint cfg) :: t
       | Raise _ => t
       end /\
     forallb is_log t = true) /\
  (exists t,
     trace (fetch_nearby_locations cfg page)
     = match start_driver page with
       | Ret _ => EvConnect (ws_endpoint cfg) :: t
       | Raise _ => t
       end /\
     forallb is_log t = true).
Proof.
  split.
  - destruct (check_category_trace cfg mon page category_name category_id)
      as (t & Ht & Hlogs).
    exists t. split; [|exact Hlogs].
    rewrite Ht. unfold connection. destruct (start_driver page); reflexivity.
  - destruct (fetch_trace cfg page) as (t & Ht & Hlogs).
    exists t. split; [|exact Hlogs].
    rewrite Ht. unfold connection. destruct (start_driver page); reflexivity.
Qed.
